(** * PySuiteCRM: the SuiteCRM API V8 client, [SuiteCRM.py]

    A shallow embedding of the request pipeline of [SuiteCRM.py]: the token
    refresh and its persistence in [AccessToken.txt], [SuiteCRM.request] with
    its two re-authentication paths, and the URL construction of [Module.get]
    and [Module.get_all].

    Python [str] values are [string]s (sequences of bytes, UTF-8), Python
    exceptions are values of [exn], and the network, the identity provider
    and the token file are an explicit [world] threaded through a
    state-and-exception monad.  The [print] calls of [_refresh_token], the
    [atexit] registration of [_login] and failures of the file system are
    left out.  Integers are [int]s; a JSON number with a fraction is not
    represented. *)

From Stdlib Require Import ZArith Ascii String DecimalString.
From stdpp Require Import base list strings gmap.

Local Open Scope string_scope.
Set Warnings "-register-all".

(** ** Python string primitives *)

Module Py.

(** A [str] is held as the bytes of its UTF-8 encoding, so a character is a
    byte that is not a continuation byte ([0x80 .. 0xBF]) together with the
    continuation bytes that follow it. *)
Definition is_continuation (c : ascii) : bool :=
  let n := N_of_ascii c in ((128 <=? n) && (n <=? 191))%N.

(** [len(s)], in characters. *)
Fixpoint len (s : string) : nat :=
  match s with
  | EmptyString => 0
  | String b rest => if is_continuation b then len rest else S (len rest)
  end.

(** Whether [s] starts at the first byte of a character, as every [str]
    does. *)
Definition begins_char (s : string) : bool :=
  match s with
  | EmptyString => true
  | String b _ => negb (is_continuation b)
  end.

(** [s[:k]]: the first [k] characters. *)
Fixpoint take (k : nat) (s : string) : string :=
  match s with
  | EmptyString => ""
  | String b rest =>
      if is_continuation b then String b (take k rest)
      else match k with
           | O => ""
           | S k' => String b (take k' rest)
           end
  end.

(** [s[:-n]] for a positive literal [n]: everything but the last [n]
    characters, and the empty string when [s] is shorter than [n]. *)
Definition drop_last (n : nat) (s : string) : string :=
  take (len s - n) s.

(** The characters of [s], each as a string of its own. *)
Fixpoint chars (s : string) : list string :=
  match s with
  | EmptyString => []
  | String b rest =>
      let cs := chars rest in
      match rest with
      | String b' _ =>
          if is_continuation b' then
            match cs with
            | c :: cs' => String b c :: cs'
            | [] => [String b ""]
            end
          else String b "" :: cs
      | EmptyString => String b "" :: cs
      end
  end.

(** [sep.join(l)] *)
Fixpoint join (sep : string) (l : list string) : string :=
  match l with
  | [] => ""
  | [x] => x
  | x :: rest => x +:+ sep +:+ join sep rest
  end.

(** [needle in hay] on strings. *)
Fixpoint contains (needle hay : string) : bool :=
  String.prefix needle hay ||
  match hay with
  | EmptyString => false
  | String _ rest => contains needle rest
  end.

(** [str(z)] for an [int]. *)
Definition str_int (z : Z) : string := NilZero.string_of_int (Z.to_int z).

(** Truthiness of a [str]. *)
Definition truthy (s : string) : bool :=
  match s with EmptyString => false | _ => true end.

(** [range(lo, hi)] *)
Definition range (lo hi : Z) : list Z :=
  map (fun i => (lo + Z.of_nat i)%Z) (seq 0 (Z.to_nat (hi - lo))).

(** The ceiling of the exact quotient of [n] by [p], for [p <> 0]. *)
Definition ceil_div (n p : Z) : Z := (- ((- n) / p))%Z.

(** The integers a double holds exactly and next to which every other
    integer of the range is held too: those below [2^53] in absolute
    value. *)
Definition exact (z : Z) : bool := (Z.abs z <? 2 ^ 53)%Z.

End Py.

(** ** [urllib.parse.quote(url, safe='/:?=&')] *)

Module Quote.

Definition in_range (lo hi c : N) : bool := ((lo <=? c) && (c <=? hi))%N.

(** [_ALWAYS_SAFE]: letters, digits and [_.-~]. *)
Definition always_safe (c : ascii) : bool :=
  let n := N_of_ascii c in
  in_range 65 90 n || in_range 97 122 n || in_range 48 57 n
  || bool_decide (c ∈ ["_"; "."; "-"; "~"]%char).

(** The [safe] argument of the call in [request]. *)
Definition safe : list ascii := ["/"; ":"; "?"; "="; "&"]%char.

Definition hex_digit (n : N) : ascii :=
  if (n <? 10)%N then ascii_of_N (48 + n) else ascii_of_N (55 + n).

Definition quote_byte (c : ascii) : string :=
  if always_safe c || bool_decide (c ∈ safe) then String c ""
  else let n := N_of_ascii c in
       String "%" (String (hex_digit (n / 16)) (String (hex_digit (n mod 16)) "")).

Fixpoint quote (s : string) : string :=
  match s with
  | EmptyString => ""
  | String c rest => quote_byte c +:+ quote rest
  end.

End Quote.

(** ** [bytes.decode()] *)

Module Utf8.

Definition between (lo hi : N) (c : ascii) : bool :=
  let n := N_of_ascii c in ((lo <=? n) && (n <=? hi))%N.

Definition lead (k : N) (c : ascii) : bool := (N_of_ascii c =? k)%N.

(** Whether the strict UTF-8 decoder accepts the bytes: the well-formed
    sequences are one byte [00..7F]; [C2..DF] and a continuation byte;
    [E0..EF] and two, the first in [A0..BF] after [E0] and in [80..9F]
    after [ED]; [F0..F4] and three, the first in [90..BF] after [F0] and in
    [80..8F] after [F4]. *)
Fixpoint valid (s : string) : bool :=
  match s with
  | EmptyString => true
  | String b0 r0 =>
      if between 0 127 b0 then valid r0
      else if between 194 223 b0 then
        match r0 with
        | String b1 r1 => between 128 191 b1 && valid r1
        | _ => false
        end
      else if between 224 239 b0 then
        match r0 with
        | String b1 (String b2 r2) =>
            (if lead 224 b0 then between 160 191 b1
             else if lead 237 b0 then between 128 159 b1
             else between 128 191 b1)
            && between 128 191 b2 && valid r2
        | _ => false
        end
      else if between 240 244 b0 then
        match r0 with
        | String b1 (String b2 (String b3 r3)) =>
            (if lead 240 b0 then between 144 191 b1
             else if lead 244 b0 then between 128 143 b1
             else between 128 191 b1)
            && between 128 191 b2 && between 128 191 b3 && valid r3
        | _ => false
        end
      else false
  end.

End Utf8.

(** ** Exceptions *)

Inductive exn : Type :=
| TokenExpiredError
| InvalidClientError
| CustomOAuth2Error
| KeyError (key : string)
| TypeError
| ZeroDivisionError
| JSONDecodeError
| SystemExit (msg : string)
| Exception (msg : string)
| OtherError (name : string).

(** ** Query construction of [Module.get] *)

Module Query.

(** The value of one keyword filter: anything printed with [str], or a
    [dict] (here with string keys and values). *)
Inductive filter_value : Type :=
| Lit (v : string)
| Dict (d : gmap string string).

(** Keyword arguments keep their order. *)
Definition filters := list (string * filter_value).

Definition operators : gmap string string :=
  <["=" := "EQ"]> (<["<>" := "NEQ"]> (<[">" := "GT"]>
  (<[">=" := "GTE"]> (<["<" := "LT"]> (<["<=" := "LTE"]> ∅))))).

(** [d[k]] *)
Definition getitem (d : gmap string string) (k : string) : exn + string :=
  match d !! k with
  | Some v => inr v
  | None => inl (KeyError k)
  end.

(** The "Fields Constructor" block. *)
Definition base_url (module_name : string) (fields : option (list string)) : string :=
  match fields with
  | Some ((_ :: _) as fs) =>
      let _fields := "?fields[" +:+ module_name +:+ "]=" +:+ Py.join "," fs in
      "/module/" +:+ module_name +:+ _fields +:+ "&filter"
  | _ => "/module/" +:+ module_name +:+ "?filter"
  end.

(** One iteration of the "Filter Constructor" loop. *)
Definition add_filter (url : string) (f : string * filter_value) : exn + string :=
  let '(field, value) := f in
  match value with
  | Dict d =>
      match getitem d "operator" with
      | inl e => inl e
      | inr op =>
          match getitem operators op with
          | inl e => inl e
          | inr opname =>
              match getitem d "value" with
              | inl e => inl e
              | inr v =>
                  inr (url +:+ "[" +:+ field +:+ "]" +:+ "[" +:+ opname +:+ "]"
                           +:+ "=" +:+ v +:+ "and&")
              end
          end
      end
  | Lit v => inr (url +:+ "[" +:+ field +:+ "][eq]=" +:+ v +:+ "and&")
  end.

Fixpoint add_filters (url : string) (fs : filters) : exn + string :=
  match fs with
  | [] => inr url
  | f :: rest =>
      match add_filter url f with
      | inl e => inl e
      | inr url' => add_filters url' rest
      end
  end.

(** The "Sort" block. *)
Definition add_sort (url sort : string) : string :=
  if Py.truthy sort then url +:+ "&sort=-" +:+ sort else url.

(** The path and query string [Module.get] hands to [request], or the
    exception raised while building it. *)
Definition build (module_name : string) (fields : option (list string))
           (sort : string) (fs : filters) : exn + string :=
  match add_filters (base_url module_name fields) fs with
  | inl e => inl e
  | inr url => inr (add_sort (Py.drop_last 4 url) sort)
  end.

End Query.

(** ** JSON values, as [json.loads] returns them *)

Inductive json : Type :=
| JNull
| JBool (b : bool)
| JNum (z : Z)
| JStr (s : string)
| JArr (l : list json)
| JObj (kv : list (string * json)).

Module Json.

Fixpoint assoc (k : string) (kv : list (string * json)) : option json :=
  match kv with
  | [] => None
  | (k', v) :: rest => if String.eqb k k' then Some v else assoc k rest
  end.

(** [j[k]] for a string [k]; [None] is Python's [None]. *)
Definition getitem (j : option json) (k : string) : exn + json :=
  match j with
  | Some (JObj kv) =>
      match assoc k kv with
      | Some v => inr v
      | None => inl (KeyError k)
      end
  | _ => inl TypeError
  end.

Definition is_str (k : string) (j : json) : bool :=
  match j with JStr s => String.eqb s k | _ => false end.

(** [k in j] for a string [k]. *)
Definition contains (k : string) (j : json) : exn + bool :=
  match j with
  | JObj kv => inr (bool_decide (is_Some (assoc k kv)))
  | JArr l => inr (existsb (is_str k) l)
  | JStr s => inr (Py.contains k s)
  | _ => inl TypeError
  end.

(** The left operand of [/]: an [int] or a [bool]. *)
Definition number (j : json) : exn + Z :=
  match j with
  | JNum z => inr z
  | JBool b => inr (Z.b2z b)
  | _ => inl TypeError
  end.

(** The elements [list.extend] takes from its argument. *)
Definition iter (j : json) : exn + list json :=
  match j with
  | JArr l => inr l
  | JObj kv => inr (map (fun p => JStr (fst p)) kv)
  | JStr s => inr (map JStr (Py.chars s))
  | _ => inl TypeError
  end.

End Json.

(** ** The world around the client *)

Record response : Type := { status_code : Z; content : string }.

(** What is passed as [data=] to the session's method: the output of
    [json.dumps] on a value, or a response object. *)
Inductive body : Type :=
| Dumps (j : json)
| RespObj (r : response).

Inductive event : Type :=
| Call (method url : string) (data : option body)
| FetchToken (token_url client_id client_secret : string).

Record PySuiteCRMConfig : Type :=
  { url : string; client_id : string; client_secret : string }.

(** [net] and [idp] script what the session's HTTP methods and
    [fetch_token] will answer, in order; once a script is used up the
    connection fails.  [token_file] is the content of [AccessToken.txt],
    [session] the token of [self.OAuth2Session] when that attribute exists,
    [trace] the calls made so far, oldest first. *)
Record world : Type :=
  { net : list (exn + response);
    idp : list (exn + string);
    token_file : option string;
    session : option string;
    trace : list event }.

Definition set_net (n : list (exn + response)) (w : world) : world :=
  {| net := n; idp := idp w; token_file := token_file w;
     session := session w; trace := trace w |}.

Definition set_idp (i : list (exn + string)) (w : world) : world :=
  {| net := net w; idp := i; token_file := token_file w;
     session := session w; trace := trace w |}.

Definition set_token_file (f : option string) (w : world) : world :=
  {| net := net w; idp := idp w; token_file := f;
     session := session w; trace := trace w |}.

Definition set_session (s : option string) (w : world) : world :=
  {| net := net w; idp := idp w; token_file := token_file w;
     session := s; trace := trace w |}.

Definition log (e : event) (w : world) : world :=
  {| net := net w; idp := idp w; token_file := token_file w;
     session := session w; trace := trace w ++ [e] |}.

(** ** The monad: state, exceptions, and running out of fuel *)

Inductive result (A : Type) : Type :=
| Ret (a : A)
| Raise (e : exn)
| Timeout.
Arguments Ret {A} a.
Arguments Raise {A} e.
Arguments Timeout {A}.

Definition M (A : Type) : Type := world -> result A * world.

Definition ret {A} (a : A) : M A := fun w => (Ret a, w).
Definition raise {A} (e : exn) : M A := fun w => (Raise e, w).
Definition timeout {A} : M A := fun w => (Timeout, w).

Definition bind {A B} (m : M A) (k : A -> M B) : M B :=
  fun w =>
    match m w with
    | (Ret a, w') => k a w'
    | (Raise e, w') => (Raise e, w')
    | (Timeout, w') => (Timeout, w')
    end.

Notation "x <- m ;; k" := (bind m (fun x => k))
  (at level 100, m at next level, right associativity).
Notation "m ;;; k" := (bind m (fun _ => k))
  (at level 100, right associativity).

(** [try: m] followed by [except] clauses: [handler e] is the body of the
    clause that catches [e], if there is one. *)
Definition try_except {A} (m : M A) (handler : exn -> option (M A)) : M A :=
  fun w =>
    match m w with
    | (Raise e, w') =>
        match handler e with
        | Some h => h w'
        | None => (Raise e, w')
        end
    | r => r
    end.

Definition lift {A} (r : exn + A) : M A :=
  match r with inl e => raise e | inr a => ret a end.

(** [exit(msg)] *)
Definition exit {A} (msg : string) : M A := raise (SystemExit msg).

Definition modify (f : world -> world) : M unit := fun w => (Ret tt, f w).
Definition gets {A} (f : world -> A) : M A := fun w => (Ret (f w), w).

(** [open('AccessToken.txt', 'w+')]: the file is created or truncated. *)
Definition open_w_plus : M unit := modify (set_token_file (Some "")).

(** [file.read()] on the handle just opened. *)
Definition file_read : M string := gets (fun w => default "" (token_file w)).

(** [file.write(s)] on the handle just opened. *)
Definition file_write (s : string) : M unit := modify (set_token_file (Some s)).

(** The three places where [AccessToken.txt] is used. *)
Module TokenStore.

(** [_refresh_token]: [with open(.., 'w+') as file: file.write(x)] *)
Definition save (x : string) : M unit := open_w_plus ;;; file_write x.

(** [_login]: [with open(.., 'w+') as file: token = file.read()] *)
Definition load : M string := open_w_plus ;;; file_read.

(** [_logout]: [with open(.., 'w+') as file: file.write('')] *)
Definition clear : M unit := open_w_plus ;;; file_write "".

End TokenStore.

(** [self.OAuth2Session.fetch_token(...)]; without a session the attribute
    access fails.  The session empties its token ([self.token = {}]) before
    it sends the token request, so the token stays empty when the request
    or the parsing of its answer raises. *)
Definition fetch_token (token_url id secret : string) : M unit :=
  fun w =>
    match session w with
    | None => (Raise (OtherError "AttributeError"), w)
    | Some _ =>
        let w' := set_session (Some "{}") (log (FetchToken token_url id secret) w) in
        match idp w with
        | [] => (Raise (OtherError "ConnectionError"), w')
        | inl e :: rest => (Raise e, set_idp rest w')
        | inr tok :: rest => (Ret tt, set_session (Some tok) (set_idp rest w'))
        end
    end.

(** [the_method(url)] and [the_method(url, data=data)] *)
Definition the_method (method url : string) (data : option body) : M response :=
  fun w =>
    let w' := log (Call method url data) w in
    match net w with
    | [] => (Raise (OtherError "ConnectionError"), w')
    | inl e :: rest => (Raise e, set_net rest w')
    | inr r :: rest => (Ret r, set_net rest w')
    end.

(** ** The client: class [SuiteCRM] and class [Module] *)

Module SuiteCRM.

(** The argument of the last [exit] of [request]; the line continuation
    inside the literal keeps the indentation of the second line. *)
Definition revoked_msg : string :=
  "401 (Unauthorized) client id/secret has been revoked, "
  +:+ "                new token was attempted and failed.".

(** [parameters == ''] *)
Definition no_parameters (parameters : json) : bool :=
  match parameters with
  | JStr EmptyString => true
  | _ => false
  end.

Section Client.

(** [json.loads] on the content of a response, or the exception it raises:
    [JSONDecodeError], or [UnicodeDecodeError] when the bytes are in none of
    the encodings it detects. *)
Variable json_loads : string -> exn + json.
(** Whether [getattr(self.OAuth2Session, method)] finds an attribute. *)
Variable session_hasattr : string -> bool.
(** [self.config] *)
Variable config : PySuiteCRMConfig.
(** [math.ceil(n / p)] when [n] or [p] is [2^53] or more in absolute
    value. *)
Variable ceil_beyond : Z -> Z -> exn + Z.

(** [math.ceil(n / p)] for [p <> 0].  Python divides in floating point and
    rounds the quotient to the nearest double.  When both operands are
    below [2^53] in absolute value, a quotient that is an integer is held
    exactly, and one that is not lies further than half a unit in the last
    place from the integer below it, so the ceiling of the rounded quotient
    is the ceiling of the exact one.  Beyond that range the rounding can
    reach the next integer and the division can raise [OverflowError]:
    [ceil_beyond] stands for what Python gives there. *)
Definition ceil_truediv (n p : Z) : exn + Z :=
  if Py.exact n && Py.exact p then inr (Py.ceil_div n p) else ceil_beyond n p.


Definition tk_url : string := Py.drop_last 2 (url config) +:+ "access_token".

Definition _refresh_token : M unit :=
  try_except
    (fetch_token tk_url (client_id config) (client_secret config))
    (fun e =>
       match e with
       | InvalidClientError => Some (exit "401 (Unauthorized) - client id/secret")
       | CustomOAuth2Error => Some (exit "401 (Unauthorized) - client id")
       | _ => None
       end) ;;;
  token <- gets session ;;
  TokenStore.save (default "" token).

Definition _login : M unit :=
  s <- gets session ;;
  match s with
  | None =>
      modify (set_session (Some "{}")) ;;;
      token <- TokenStore.load ;;
      if String.eqb token "" then _refresh_token
      else modify (set_session (Some token))
  | Some _ => _refresh_token
  end.

(** [the_method(url)] when [parameters == ''], and
    [the_method(url, data=data)] otherwise. *)
Definition send (method url : string) (parameters : json) (data : body)
  : M response :=
  if no_parameters parameters then the_method method url None
  else the_method method url (Some data).

(** The [data=] argument [send] passes on. *)
Definition data_arg (parameters : json) (data : body) : option body :=
  if no_parameters parameters then None else Some data.

(** The [while] loop under "Revoked Token"; [data] is the response the
    variable of that name holds when the loop is entered. *)
Fixpoint revoked_loop (fuel : nat) (method url : string) (parameters : json)
         (attempts : Z) (data : response) : M response :=
  if (status_code data =? 401)%Z && (attempts <? 1)%Z then
    match fuel with
    | O => timeout
    | S fuel' =>
        _refresh_token ;;;
        data' <- send method url parameters (RespObj data) ;;
        revoked_loop fuel' method url parameters (attempts + 1) data'
    end
  else ret data.

(** [data.status_code == 400 and 'Database failure.' in
    data.content.decode()]: the body is decoded, as strict UTF-8, only when
    the status is 400. *)
Definition database_failure (data : response) : exn + bool :=
  if (status_code data =? 400)%Z then
    if Utf8.valid (content data)
    then inr (Py.contains "Database failure." (content data))
    else inl (OtherError "UnicodeDecodeError")
  else inr false.

(** What [request] does with the response it ends up with, from the
    second test for 401 on. *)
Definition respond (data : response) : M (option json) :=
  if (status_code data =? 401)%Z then exit revoked_msg
  else
    failed <- lift (database_failure data) ;;
    if failed then raise (Exception (content data))
    else
      j <- lift (json_loads (content data)) ;;
      ret (Some j).

(** The responses [respond] returns the parsed body [j] for: any status
    but 401, not the "Database failure." answer, and a body that
    parses. *)
Definition answers (r : response) (j : json) : Prop :=
  status_code r <> 401%Z
  /\ database_failure r = inr false
  /\ json_loads (content r) = inr j.

(** The responses to a page request from which [get_all] takes the
    records [items]. *)
Definition answers_page (r : response) (items : list json) : Prop :=
  exists j d, answers r j
              /\ Json.getitem (Some j) "data" = inr d
              /\ Json.iter d = inr items.

Definition request_fuel (fuel : nat) (url method : string) (parameters : json)
  : M (option json) :=
  let url := Quote.quote url in
  let data := Dumps (JObj [("data", parameters)]) in
  s <- gets session ;;
  if negb (bool_decide (is_Some s) && session_hasattr method) then ret None
  else
    data <- try_except
              (send method url parameters data)
              (fun e =>
                 match e with
                 | TokenExpiredError =>
                     Some (_refresh_token ;;; send method url parameters data)
                 | _ => None
                 end) ;;
    data <- revoked_loop fuel method url parameters 0 data ;;
    respond data.

(** The loop body runs at most once, so one unit of fuel is enough
    (see [request_fuel_enough]). *)
Definition request : string -> string -> json -> M (option json) :=
  request_fuel 1.

Definition _logout : M unit :=
  request (url config +:+ "/logout") "post" (JStr "") ;;;
  TokenStore.clear.

(** [Module.get] of the module named [module_name]. *)
Definition get (module_name : string) (fields : option (list string))
           (sort : string) (filters : Query.filters) : M json :=
  url' <- lift (Query.build module_name fields sort filters) ;;
  r <- request (url config +:+ url') "get" (JStr "") ;;
  lift (Json.getitem r "data").

Definition page_url (module_name : string) (page record_per_page : Z) : string :=
  Py.join "/" ["/module"; module_name]
  +:+ Py.join "&" ["?page[number]=" +:+ Py.str_int page;
                   "page[size]=" +:+ Py.str_int record_per_page].

(** The [for page in range(1, pages)] loop of [Module.get_all]. *)
Fixpoint fetch_pages (module_name : string) (record_per_page : Z)
         (pages : list Z) (result : list json) : M (list json) :=
  match pages with
  | [] => ret result
  | page :: rest =>
      r <- request (url config +:+ page_url module_name page record_per_page)
                   "get" (JStr "") ;;
      d <- lift (Json.getitem r "data") ;;
      items <- lift (Json.iter d) ;;
      fetch_pages module_name record_per_page rest (result ++ items)
  end.

(** [Module.get_all] *)
Definition get_all (module_name : string) (record_per_page : Z)
  : M (list json) :=
  let url' := "/module/" +:+ module_name +:+ "?page[number]=1&page[size]=1" in
  req <- request (url config +:+ url') "get" (JStr "") ;;
  meta <- lift (Json.getitem req "meta") ;;
  present <- lift (Json.contains "total-pages" meta) ;;
  if negb present then ret []
  else
    total <- lift (Json.getitem (Some meta) "total-pages") ;;
    n <- lift (Json.number total) ;;
    if (record_per_page =? 0)%Z then raise ZeroDivisionError
    else
      ceiling <- lift (ceil_truediv n record_per_page) ;;
      let pages := (ceiling + 1)%Z in
      fetch_pages module_name record_per_page (Py.range 1 pages) [].

End Client.

End SuiteCRM.

(** ** A deployment to run the client on *)

Module Sample.

(** Stands for [json.loads] on the few bodies the scripted servers below
    answer with. *)
Definition loads (s : string) : exn + json :=
  if String.eqb s "probe4" then
    inr (JObj [("data", JArr []); ("meta", JObj [("total-pages", JNum 4)])])
  else if String.eqb s "empty" then
    inr (JObj [("data", JArr []); ("meta", JObj [("records-on-this-page", JNum 0)])])
  else if String.eqb s "page-a" then
    inr (JObj [("data", JArr [JStr "r1"; JStr "r2"])])
  else if String.eqb s "page-b" then
    inr (JObj [("data", JArr [JStr "r3"; JStr "r4"])])
  else if String.eqb s "ok" then inr (JObj [])
  else inl JSONDecodeError.

(** The HTTP verbs of a [requests] session. *)
Definition hasattr (m : string) : bool :=
  bool_decide (m ∈ ["get"; "options"; "head"; "post"; "put"; "patch"; "delete"]).

Definition config : PySuiteCRMConfig :=
  {| url := "https://crm.example.com/Api/V8";
     client_id := "id"; client_secret := "secret" |}.

Definition resp (code : Z) (s : string) : response :=
  {| status_code := code; content := s |}.

(** A logged-in client whose token file holds the current token. *)
Definition world0 (n : list (exn + response)) (i : list (exn + string)) : world :=
  {| net := n; idp := i; token_file := Some "tok0"; session := Some "tok0";
     trace := [] |}.

Definition request := SuiteCRM.request loads hasattr config.
Definition get := SuiteCRM.get loads hasattr config.
(** The page counts of the runs below are small. *)
Definition beyond (n p : Z) : exn + Z := inl (OtherError "OverflowError").

Definition get_all := SuiteCRM.get_all loads hasattr config beyond.
Definition _logout := SuiteCRM._logout loads hasattr config.
Definition _login := SuiteCRM._login config.

End Sample.

(** ** Reference definitions, written from the specification *)

Module Spec.

(** The operator table of the query builder. *)
Definition operator_table : list (string * string) :=
  [("=", "EQ"); ("<>", "NEQ"); (">", "GT"); (">=", "GTE"); ("<", "LT"); ("<=", "LTE")].

Fixpoint has_slash (s : string) : bool :=
  match s with
  | EmptyString => false
  | String c rest => Ascii.eqb c "/" || has_slash rest
  end.

(** The final path segment: what follows the last [/]. *)
Fixpoint last_segment (s : string) : string :=
  match s with
  | EmptyString => ""
  | String c rest =>
      if has_slash rest then last_segment rest
      else if Ascii.eqb c "/" then rest else s
  end.

(** Everything before the final path segment. *)
Fixpoint without_last_segment (s : string) : string :=
  match s with
  | EmptyString => ""
  | String c rest =>
      if has_slash rest then String c (without_last_segment rest)
      else if Ascii.eqb c "/" then "/" else ""
  end.

(** "Base URL with its last path segment replaced by [access_token]". *)
Definition token_endpoint (base_url : string) : string :=
  without_last_segment base_url +:+ "access_token".

End Spec.

(** ** What every computation of the client preserves *)

(** [m] never runs out of fuel and only ever adds to the trace. *)
Definition steady {A} (m : M A) : Prop :=
  forall w, fst (m w) <> Timeout /\ exists tl, trace (snd (m w)) = (trace w ++ tl)%list.

(** ** More of what the client does *)

(** Subscripts and methods on parsed JSON that [Module.fields] uses. *)
Module JsonOps.

(** [j[0]]; the key of the [KeyError] on a [dict] is the integer 0. *)
Definition index0 (j : json) : exn + json :=
  match j with
  | JArr (x :: _) => inr x
  | JArr [] => inl (OtherError "IndexError")
  | JObj _ => inl (KeyError "0")
  | JStr s =>
      match Py.chars s with
      | c :: _ => inr (JStr c)
      | [] => inl (OtherError "IndexError")
      end
  | _ => inl TypeError
  end.

(** [list(j.keys())] *)
Definition keys (j : json) : exn + list string :=
  match j with
  | JObj kv => inr (map fst kv)
  | _ => inl (OtherError "AttributeError")
  end.

End JsonOps.

(** The text one filter contributes to the query of [Module.get], without
    the conjunction that follows it. *)
Module Term.

Definition text (f : string * Query.filter_value) : exn + string :=
  let '(field, value) := f in
  match value with
  | Query.Dict d =>
      match Query.getitem d "operator" with
      | inl e => inl e
      | inr op =>
          match Query.getitem Query.operators op with
          | inl e => inl e
          | inr opname =>
              match Query.getitem d "value" with
              | inl e => inl e
              | inr v => inr ("[" +:+ field +:+ "]" +:+ "[" +:+ opname +:+ "]" +:+ "=" +:+ v)
              end
          end
      end
  | Query.Lit v => inr ("[" +:+ field +:+ "][eq]=" +:+ v)
  end.

(** The terms of all filters, in order, or the first exception. *)
Fixpoint texts (fs : Query.filters) : exn + list string :=
  match fs with
  | [] => inr []
  | f :: rest =>
      match text f with
      | inl e => inl e
      | inr t =>
          match texts rest with
          | inl e => inl e
          | inr ts => inr (t :: ts)
          end
      end
  end.

End Term.

(** Reading one escaped byte back, to tell encoded URLs apart. *)
Module Unquote.

Definition hex_value (c : ascii) : N :=
  let n := N_of_ascii c in
  if (n <? 58)%N then (n - 48)%N else (n - 55)%N.

Definition head (s : string) : option (ascii * string) :=
  match s with
  | EmptyString => None
  | String c rest =>
      if Ascii.eqb c "%" then
        match rest with
        | String h (String l rest') =>
            Some (ascii_of_N (16 * hex_value h + hex_value l), rest')
        | _ => None
        end
      else Some (c, rest)
  end.

End Unquote.

(** The other methods of class [Module]. *)
Module CrmModule.

Section Ops.

Variable json_loads : string -> exn + json.
Variable session_hasattr : string -> bool.
Variable config : PySuiteCRMConfig.
(** [str.lower] and [str.capitalize] *)
Variable str_lower : string -> string.
Variable str_capitalize : string -> string.

(** [Module.create]; [id] is the string [str(uuid.uuid4())] gives. *)
Definition create (module_name id : string) (attributes : list (string * json))
  : M (option json) :=
  let url' := "/module" in
  let data := JObj [("type", JStr module_name); ("id", JStr id);
                    ("attributes", JObj attributes)] in
  SuiteCRM.request json_loads session_hasattr config (url config +:+ url') "post" data.

(** [Module.delete] *)
Definition delete (module_name record_id : string) : M (option json) :=
  let url' := "/module/" +:+ module_name +:+ "/" +:+ record_id in
  SuiteCRM.request json_loads session_hasattr config (url config +:+ url') "delete"
    (JStr "").

(** [Module.fields] *)
Definition fields (module_name : string) : M (list string) :=
  let url' := "/module/" +:+ module_name +:+ "?page[number]=1&page[size]=1" in
  r <- SuiteCRM.request json_loads session_hasattr config (url config +:+ url') "get"
         (JStr "") ;;
  data <- lift (Json.getitem r "data") ;;
  record <- lift (JsonOps.index0 data) ;;
  attributes <- lift (Json.getitem (Some record) "attributes") ;;
  lift (JsonOps.keys attributes).

(** [Module.update] *)
Definition update (module_name record_id : string) (attributes : list (string * json))
  : M (option json) :=
  let url' := "/module" in
  let data := JObj [("type", JStr module_name); ("id", JStr record_id);
                    ("attributes", JObj attributes)] in
  SuiteCRM.request json_loads session_hasattr config (url config +:+ url') "patch" data.

(** [Module.get_relationship] *)
Definition get_relationship (module_name record_id related_module_name : string)
  : M json :=
  let url' := Py.join "/" ["/module"; module_name; record_id; "relationships";
                           str_lower related_module_name] in
  r <- SuiteCRM.request json_loads session_hasattr config (url config +:+ url') "get"
         (JStr "") ;;
  lift (Json.getitem r "data").

(** [Module.create_relationship] *)
Definition create_relationship
           (module_name record_id related_module_name related_bean_id : string)
  : M (option json) :=
  let url' := "/module/" +:+ module_name +:+ "/" +:+ record_id +:+ "/relationships" in
  let data := JObj [("type", JStr (str_capitalize related_module_name));
                    ("id", JStr related_bean_id)] in
  SuiteCRM.request json_loads session_hasattr config (url config +:+ url') "post" data.

(** The path [Module.delete_relationship] builds. *)
Definition delete_relationship_path
           (module_name record_id related_module_name related_bean_id : string)
  : string :=
  Py.join "/" ["module"; module_name; record_id; "relationships";
               str_lower related_module_name; related_bean_id].

(** [Module.delete_relationship] *)
Definition delete_relationship
           (module_name record_id related_module_name related_bean_id : string)
  : M (option json) :=
  let url' := delete_relationship_path module_name record_id related_module_name
                related_bean_id in
  SuiteCRM.request json_loads session_hasattr config (url config +:+ url') "delete"
    (JStr "").

End Ops.

End CrmModule.

(** The attributes of a [SuiteCRM] object: [_modules],
    [_load_custom_modules] and [__init__]. *)
Module Registry.

(** What an attribute of the client holds: a [Module] object for the CRM
    module of that name, or anything else (a method, the configuration, the
    session). *)
Inductive attribute : Type :=
| ModuleObj (crm_name : string)
| Other.

(** The assignments at the top of [_modules], in order. *)
Definition builtin_modules : list string :=
  ["Accounts"; "Bugs"; "Calendar"; "Calls"; "Cases"; "Campaigns"; "Contacts";
   "Documents"; "Email"; "Emails"; "Employees"; "Leads"; "Lists"; "Meetings";
   "Notes"; "Opportunities"; "Projects"; "Spots"; "Surveys"; "Target"; "Targets";
   "Tasks"; "Templates"].

(** One pass of the loop of [_load_custom_modules]; [_module] is one
    declaration of the configuration, a [dict], and [self] maps every name
    for which [hasattr(self, name)] holds.  The [Warning] objects the code
    builds have no effect, and [setattr] on a name that is free does not
    raise. *)
Definition load_custom_module (self : gmap string attribute)
           (_module : gmap string string) : exn + gmap string attribute :=
  match Query.getitem _module "client_name" with
  | inl e => inl e
  | inr client_name =>
      match self !! client_name with
      | Some _ => inr self
      | None =>
          match Query.getitem _module "crm_name" with
          | inl e => inl e
          | inr crm_name => inr (<[client_name := ModuleObj crm_name]> self)
          end
      end
  end.

Fixpoint load_each (self : gmap string attribute)
         (custom_modules : list (gmap string string)) : exn + gmap string attribute :=
  match custom_modules with
  | [] => inr self
  | _module :: rest =>
      match load_custom_module self _module with
      | inl e => inl e
      | inr self' => load_each self' rest
      end
  end.

(** [_load_custom_modules]; [custom_modules] is [self.config.custom_modules],
    [None] when it is not set. *)
Definition _load_custom_modules (self : gmap string attribute)
           (custom_modules : option (list (gmap string string)))
  : exn + gmap string attribute :=
  match custom_modules with
  | None | Some [] => inr self
  | Some l => load_each self l
  end.

(** [_modules] *)
Definition _modules (self : gmap string attribute)
           (custom_modules : option (list (gmap string string)))
  : exn + gmap string attribute :=
  _load_custom_modules
    (foldl (fun s name => <[name := ModuleObj name]> s) self builtin_modules)
    custom_modules.

(** Truthiness of an [Optional[str]] argument. *)
Definition given (s : option string) : bool :=
  match s with
  | Some s => Py.truthy s
  | None => false
  end.

Section Init.

(** The constructor of [PySuiteCRMConfig] from [url], [client_id] and
    [client_secret], the truthiness of a configuration object and its
    [custom_modules] attribute: the class is defined in [config_parser]. *)
Variable new_config : string -> string -> string -> exn + PySuiteCRMConfig.
Variable config_truthy : PySuiteCRMConfig -> bool.
Variable custom_modules_of : PySuiteCRMConfig -> option (list (gmap string string)).
(** The attributes the object has when [_modules] starts that are not
    assigned there. *)
Variable base_attributes : gmap string attribute.

(** The first block of [__init__]: [self.config] after it, if set. *)
Definition choose_config (client_id client_secret url : option string)
           (config : option PySuiteCRMConfig) : exn + option PySuiteCRMConfig :=
  match config with
  | Some c =>
      if config_truthy c then inr (Some c)
      else if given client_id && given url && given client_secret then
             match new_config (default "" url) (default "" client_id)
                              (default "" client_secret) with
             | inl e => inl e
             | inr c' => inr (Some c')
             end
           else inr None
  | None =>
      if given client_id && given url && given client_secret then
        match new_config (default "" url) (default "" client_id)
                         (default "" client_secret) with
        | inl e => inl e
        | inr c' => inr (Some c')
        end
      else inr None
  end.

(** [SuiteCRM.__init__]; the result is the configuration and the attributes
    of the new object. *)
Definition __init__ (client_id client_secret url : option string)
           (config : option PySuiteCRMConfig)
  : M (PySuiteCRMConfig * gmap string attribute) :=
  chosen <- lift (choose_config client_id client_secret url config) ;;
  match chosen with
  | None => raise (OtherError "AttributeError")
  | Some c =>
      if negb (config_truthy c)
      then raise (OtherError "PySuiteCRMConfigException")
      else
        SuiteCRM._login c ;;;
        attrs <- lift (_modules base_attributes (custom_modules_of c)) ;;
        ret (c, attrs)
  end.

End Init.

End Registry.

(** ** A second deployment, for the methods above *)

Module Demo.

(** [str.lower] and [str.capitalize] on ASCII text. *)
Definition lower_char (c : ascii) : ascii :=
  let n := N_of_ascii c in
  if Quote.in_range 65 90 n then ascii_of_N (n + 32) else c.

Definition upper_char (c : ascii) : ascii :=
  let n := N_of_ascii c in
  if Quote.in_range 97 122 n then ascii_of_N (n - 32) else c.

Fixpoint lower (s : string) : string :=
  match s with
  | EmptyString => ""
  | String c rest => String (lower_char c) (lower rest)
  end.

Definition capitalize (s : string) : string :=
  match s with
  | EmptyString => ""
  | String c rest => String (upper_char c) (lower rest)
  end.

Definition new_config (u i s : string) : exn + PySuiteCRMConfig :=
  inr {| url := u; client_id := i; client_secret := s |}.

Definition config_truthy (c : PySuiteCRMConfig) : bool := true.

Definition declaration (client crm : string) : gmap string string :=
  <["client_name" := client]> (<["crm_name" := crm]> ∅).

(** Three declarations: a new name, a built-in name, and the new name
    again. *)
Definition custom_modules : list (gmap string string) :=
  [declaration "Invoices" "AOS_Invoices"; declaration "Contacts" "Hijack";
   declaration "Invoices" "Other"].

Definition custom_modules_of (c : PySuiteCRMConfig) : option (list (gmap string string)) :=
  Some custom_modules.

(** Methods and instance attributes of a client. *)
Definition base_attributes : gmap string Registry.attribute :=
  <["request" := Registry.Other]> (<["config" := Registry.Other]>
  (<["OAuth2Session" := Registry.Other]> ∅)).

Definition attributes : gmap string Registry.attribute :=
  match Registry._modules base_attributes (Some custom_modules) with
  | inr a => a
  | inl _ => ∅
  end.

(** A world in which no client has been constructed yet. *)
Definition fresh (i : list (exn + string)) : world :=
  {| net := []; idp := i; token_file := Some "saved"; session := None; trace := [] |}.

Definition loads (s : string) : exn + json :=
  if String.eqb s "records" then
    inr (JObj [("data",
                 JArr [JObj [("type", JStr "Leads");
                             ("attributes", JObj [("name", JStr "a"); ("city", JStr "b")])];
                       JObj [("type", JStr "Leads");
                             ("attributes", JObj [("other", JNull)])]])])
  else if String.eqb s "none" then
    inr (JObj [("data", JArr []); ("meta", JObj [("total-pages", JNum 7)])])
  else if String.eqb s "error" then
    inr (JObj [("errors", JObj [("status", JNum 404)])])
  else inl JSONDecodeError.

Definition request := SuiteCRM.request loads Sample.hasattr Sample.config.
Definition get := SuiteCRM.get loads Sample.hasattr Sample.config.
Definition get_all := SuiteCRM.get_all loads Sample.hasattr Sample.config Sample.beyond.
Definition fields := CrmModule.fields loads Sample.hasattr Sample.config.
Definition delete_relationship :=
  CrmModule.delete_relationship loads Sample.hasattr Sample.config lower.
Definition __init__ :=
  Registry.__init__ new_config config_truthy custom_modules_of base_attributes.

End Demo.

(** ** Counting what a computation does *)

Definition is_call (e : event) : bool :=
  match e with Call _ _ _ => true | _ => false end.

Definition is_fetch (e : event) : bool :=
  match e with FetchToken _ _ _ => true | _ => false end.

(** [m] adds at most [c] calls and [f] token requests to the trace. *)
Definition bounded {A} (c f : nat) (m : M A) : Prop :=
  forall w, exists tl,
    trace (snd (m w)) = (trace w ++ tl)%list
    /\ length (List.filter is_call tl) <= c
    /\ length (List.filter is_fetch tl) <= f.

(** The token file holds the token of the session. *)
Definition in_sync (w : world) : Prop := token_file w = session w.

(** [m] keeps the file and the session in step. *)
Definition keeps_sync {A} (m : M A) : Prop :=
  forall w, in_sync w -> in_sync (snd (m w)).

(** [m] keeps them in step whenever it returns a value. *)
Definition returns_in_sync {A} (m : M A) : Prop :=
  forall w, in_sync w -> forall a, fst (m w) = Ret a -> in_sync (snd (m w)).

(** * Properties *)

(** ** The primitives on examples *)

Example drop_last_short : Py.drop_last 4 "abc" = "".
Proof. reflexivity. Qed.

Example drop_last_long : Py.drop_last 2 "https://h/Api/V8" = "https://h/Api/".
Proof. reflexivity. Qed.

Example drop_last_characters :
  Py.drop_last 2 "https://h/Api/éö" = "https://h/Api/"
  /\ Py.drop_last 2 "https://h/Api/é" = "https://h/Api"
  /\ Py.len "éö" = 2 /\ Py.chars "aéb" = ["a"; "é"; "b"].
Proof. repeat split; reflexivity. Qed.

Example utf8_valid_examples :
  let bytes l := string_of_list_ascii (map ascii_of_nat l) in
  Utf8.valid "status: é" = true
  /\ Utf8.valid (bytes [244; 143; 191; 191]) = true
  /\ Utf8.valid (bytes [237; 159; 191]) = true
  /\ Utf8.valid (bytes [255]) = false
  /\ Utf8.valid (bytes [192; 128]) = false
  /\ Utf8.valid (bytes [237; 160; 128]) = false
  /\ Utf8.valid (bytes [224; 159; 128]) = false
  /\ Utf8.valid (bytes [240; 143; 128; 128]) = false
  /\ Utf8.valid (bytes [244; 144; 128; 128]) = false
  /\ Utf8.valid (bytes [225; 128]) = false.
Proof. repeat split; reflexivity. Qed.

Example join_fields : Py.join "," ["name"; "email"; "phone"] = "name,email,phone".
Proof. reflexivity. Qed.

Example str_int_examples :
  Py.str_int 0 = "0" /\ Py.str_int 100 = "100" /\ Py.str_int (-5) = "-5".
Proof. repeat split; reflexivity. Qed.

Example range_example : Py.range 1 4 = [1; 2; 3]%Z /\ Py.range 1 1 = [] /\ Py.range 1 0 = [].
Proof. repeat split; reflexivity. Qed.

Example ceil_div_examples :
  Py.ceil_div 7 2 = 4%Z /\ Py.ceil_div 8 2 = 4%Z /\ Py.ceil_div 0 100 = 0%Z
  /\ Py.ceil_div 1 100 = 1%Z.
Proof. repeat split; reflexivity. Qed.

Example quote_brackets :
  Quote.quote "https://h/Api/V8/module/A b?filter[x][eq]=1+2&sort=-y"
  = "https://h/Api/V8/module/A%20b?filter%5Bx%5D%5Beq%5D=1%2B2&sort=-y".
Proof. reflexivity. Qed.

Example contains_marker :
  Py.contains "Database failure." "{errors: Database failure. Please refer}" = true
  /\ Py.contains "Database failure." "Database failure" = false.
Proof. split; reflexivity. Qed.

(** ** Strings *)

Lemma append_cons (x : ascii) (a b : string) :
  String x a +:+ b = String x (a +:+ b).
Proof. reflexivity. Qed.

Lemma append_assoc (a b c : string) : (a +:+ b) +:+ c = a +:+ (b +:+ c).
Proof.
  induction a as [|x a IH]; [reflexivity|].
  rewrite !append_cons. f_equal. exact IH.
Qed.

Lemma append_length (a b : string) :
  String.length (a +:+ b) = String.length a + String.length b.
Proof.
  induction a as [|x a IH]; [reflexivity|].
  rewrite append_cons. simpl. f_equal. exact IH.
Qed.

Lemma substring_prefix (a b : string) :
  substring 0 (String.length a) (a +:+ b) = a.
Proof.
  induction a as [|x a IH].
  - now destruct b.
  - rewrite append_cons. simpl. f_equal. exact IH.
Qed.

Lemma len_append (a b : string) : Py.len (a +:+ b) = Py.len a + Py.len b.
Proof.
  induction a as [|x a IH]; [reflexivity|].
  rewrite append_cons. simpl. destruct (Py.is_continuation x); lia.
Qed.

Lemma take_len_append (a b : string) :
  Py.begins_char b = true -> Py.take (Py.len a) (a +:+ b) = a.
Proof.
  intros Hb. induction a as [|x a IH].
  - destruct b as [|y b]; [reflexivity|]. simpl in *.
    now destruct (Py.is_continuation y).
  - rewrite append_cons. simpl.
    destruct (Py.is_continuation x); simpl; f_equal; exact IH.
Qed.

(** [(a + b)[:-len(b)] == a] *)
Lemma drop_last_chars (a b : string) :
  Py.begins_char b = true -> Py.drop_last (Py.len b) (a +:+ b) = a.
Proof.
  intros Hb. unfold Py.drop_last. rewrite len_append.
  replace (Py.len a + Py.len b - Py.len b) with (Py.len a) by lia.
  now apply take_len_append.
Qed.

(** The same for a suffix of one-byte characters. *)
Lemma drop_last_append (a b : string) :
  Py.len b = String.length b -> Py.begins_char b = true ->
  Py.drop_last (String.length b) (a +:+ b) = a.
Proof. intros <- Hb. now apply drop_last_chars. Qed.

Lemma split_last_segment (s : string) :
  s = Spec.without_last_segment s +:+ Spec.last_segment s.
Proof.
  induction s as [|c s IH]; simpl; [reflexivity|].
  destruct (Spec.has_slash s).
  - rewrite append_cons. f_equal. exact IH.
  - destruct (Ascii.eqb_spec c "/") as [->|_]; reflexivity.
Qed.

(** ** The query builder *)

Lemma operators_table (op opname : string) :
  (op, opname) ∈ Spec.operator_table -> Query.operators !! op = Some opname.
Proof.
  unfold Spec.operator_table. intros H.
  repeat (apply elem_of_cons in H as [H|H];
          [injection H as -> ->; vm_compute; reflexivity|]).
  now apply elem_of_nil in H.
Qed.

Lemma operators_unknown (op : string) :
  op ∉ Spec.operator_table.*1 -> Query.operators !! op = None.
Proof.
  unfold Spec.operator_table, Query.operators. simpl. intros H.
  repeat (apply not_elem_of_cons in H as [? H]).
  rewrite !lookup_insert_ne by congruence. apply lookup_empty.
Qed.

Lemma add_filters_fails (fs : Query.filters) :
  forall (url field : string) (d : gmap string string) (op : string),
    (field, Query.Dict d) ∈ fs ->
    d !! "operator" = Some op ->
    Query.operators !! op = None ->
    exists e, Query.add_filters url fs = inl e.
Proof.
  induction fs as [|f fs IH]; intros url field d op Hin Hop Hnone.
  - now apply elem_of_nil in Hin.
  - apply elem_of_cons in Hin as [<-|Hin]; simpl.
    + unfold Query.getitem. rewrite Hop, Hnone. eauto.
    + destruct (Query.add_filter url f) as [e|url']; [eauto|].
      eapply IH; eauto.
Qed.

(** Every term the loop emits ends with the conjunction. *)
Lemma add_filter_conjunction (url : string) (f : string * Query.filter_value) (url' : string) :
  Query.add_filter url f = inr url' ->
  exists term, url' = (url +:+ term) +:+ "and&".
Proof.
  destruct f as [field [v|d]]; simpl; unfold Query.getitem.
  - intros [= <-]. exists ("[" +:+ field +:+ "][eq]=" +:+ v).
    now rewrite !append_assoc.
  - destruct (d !! "operator") as [op|]; [|discriminate].
    destruct (Query.operators !! op) as [opname|]; [|discriminate].
    destruct (d !! "value") as [v|]; [|discriminate].
    intros [= <-].
    exists ("[" +:+ field +:+ "]" +:+ "[" +:+ opname +:+ "]" +:+ "=" +:+ v).
    now rewrite !append_assoc.
Qed.

Lemma add_filters_conjunction (fs : Query.filters) :
  forall url url', fs <> [] -> Query.add_filters url fs = inr url' ->
    exists terms, url' = (url +:+ terms) +:+ "and&".
Proof.
  induction fs as [|f fs IH]; intros url url' Hne H; [congruence|].
  simpl in H. destruct (Query.add_filter url f) as [e|u1] eqn:Hf; [discriminate|].
  apply add_filter_conjunction in Hf as [t ->].
  destruct fs as [|g fs].
  - simpl in H. injection H as <-. eauto.
  - apply IH in H as [ts ->]; [|discriminate].
    exists (t +:+ "and&" +:+ ts). now rewrite !append_assoc.
Qed.

(** With at least one filter, [url[:-4]] removes exactly the conjunction
    that follows the last term. *)
Lemma build_strips_conjunction (name : string) (fields : option (list string))
      (sort : string) (fs : Query.filters) (q : string) :
  fs <> [] -> Query.build name fields sort fs = inr q ->
  exists terms,
    Query.add_filters (Query.base_url name fields) fs
      = inr ((Query.base_url name fields +:+ terms) +:+ "and&")
    /\ q = Query.add_sort (Query.base_url name fields +:+ terms) sort.
Proof.
  unfold Query.build. intros Hne H.
  destruct (Query.add_filters _ fs) as [e|u] eqn:Hu; [discriminate|].
  injection H as <-.
  destruct (add_filters_conjunction _ _ _ Hne Hu) as [ts ->].
  exists ts. split; [reflexivity|].
  now rewrite (drop_last_append _ "and&") by reflexivity.
Qed.

(** C2, at the failing input.  With no filter the loop emits nothing, and
    [url[:-4]] then removes the last four characters [lter] of the
    [filter] opener: [Module.get] asks for [/module/<name>?fi] and, with a
    field selection, for [...&fi]. *)
Theorem build_no_filters_truncates (name : string) (fields : option (list string))
        (sort : string) :
  exists front,
    Query.base_url name fields = front +:+ "filter"
    /\ Query.build name fields sort [] = inr (Query.add_sort (front +:+ "fi") sort).
Proof.
  unfold Query.build. simpl.
  assert (H : exists front, Query.base_url name fields = front +:+ "filter").
  { unfold Query.base_url. destruct fields as [[|f fs]|].
    - exists ("/module/" +:+ name +:+ "?"). now rewrite !append_assoc.
    - eexists ("/module/" +:+ name +:+ ("?fields[" +:+ name +:+ "]=" +:+ Py.join "," (f :: fs)) +:+ "&").
      now rewrite !append_assoc.
    - exists ("/module/" +:+ name +:+ "?"). now rewrite !append_assoc. }
  destruct H as [front H]. exists front. split; [exact H|].
  rewrite H. change "filter" with ("fi" +:+ "lter").
  rewrite <- append_assoc. now rewrite (drop_last_append _ "lter") by reflexivity.
Qed.

(** C5.  The documented example: the query for [Contacts] selects [name],
    carries the two filter terms joined by [and], and ends with the
    descending sort on [date_entered]. *)
Theorem build_contacts_example :
  Query.build "Contacts" (Some ["name"]) "date_entered"
    [("status", Query.Lit "Active");
     ("date_start",
      Query.Dict (<["operator" := ">"]> (<["value" := "2020-05-08T09:59:00+00:00"]> ∅)))]
  = inr ("/module/Contacts" +:+ "?fields[Contacts]=name" +:+ "&filter"
         +:+ "[status][eq]=Active" +:+ "and" +:+ "&"
         +:+ "[date_start][GT]=2020-05-08T09:59:00+00:00"
         +:+ "&sort=-date_entered").
Proof. vm_compute. reflexivity. Qed.

(** ** The token endpoint *)

(** C6, counterexample.  For a base URL whose last segment is [api] the
    code keeps the [a] of that segment. *)
Lemma tk_url_keeps_part_of_segment :
  SuiteCRM.tk_url {| url := "https://crm.example.com/api";
                     client_id := "id"; client_secret := "secret" |}
  <> Spec.token_endpoint "https://crm.example.com/api".
Proof. vm_compute. discriminate. Qed.

(** A continuation byte starts no well-formed text. *)
Lemma valid_begins_char (s : string) :
  Utf8.valid s = true -> Py.begins_char s = true.
Proof.
  destruct s as [|b0 r0]; [reflexivity|]. simpl.
  unfold Py.is_continuation, Utf8.between.
  destruct (N.leb_spec 128 (N_of_ascii b0)), (N.leb_spec (N_of_ascii b0) 191);
    try reflexivity.
  destruct (N.leb_spec 0 (N_of_ascii b0)), (N.leb_spec (N_of_ascii b0) 127);
    simpl; try lia.
  destruct (N.leb_spec 194 (N_of_ascii b0)), (N.leb_spec (N_of_ascii b0) 223);
    simpl; try lia;
  destruct (N.leb_spec 224 (N_of_ascii b0)), (N.leb_spec (N_of_ascii b0) 239);
    simpl; try lia;
  destruct (N.leb_spec 240 (N_of_ascii b0)), (N.leb_spec (N_of_ascii b0) 244);
    simpl; try lia; discriminate.
Qed.

Lemma append_nil_l (s : string) : "" +:+ s = s.
Proof. reflexivity. Qed.

(** A slash in the place of a continuation byte. *)
Ltac misplaced_slash H :=
  rewrite ?append_cons, ?append_nil_l in H; simpl in H;
  repeat match type of H with
         | context [match ?c with _ => _ end] => destruct c; simpl in H
         end;
  rewrite ?andb_false_r in H; simpl in H; discriminate H.

(** What follows a slash in well-formed text is well-formed: the slash is
    a character of its own. *)
Lemma valid_after_slash (n : nat) :
  forall a b : string,
    String.length a <= n ->
    Utf8.valid (a +:+ String "/" b) = true -> Utf8.valid b = true.
Proof.
  induction n as [|n IH]; intros a b Hlen H.
  - destruct a; [exact H | simpl in Hlen; lia].
  - destruct a as [|b0 a]; [exact H|].
    rewrite append_cons in H. simpl in H, Hlen.
    destruct (Utf8.between 0 127 b0); [apply (IH a b); [lia | exact H]|].
    destruct (Utf8.between 194 223 b0).
    { destruct a as [|b1 a]; [misplaced_slash H|].
      rewrite append_cons in H. simpl in Hlen.
      apply andb_prop in H as [_ H]. apply (IH a b); [lia | exact H]. }
    destruct (Utf8.between 224 239 b0).
    { destruct a as [|b1 [|b2 a]]; [misplaced_slash H | misplaced_slash H |].
      rewrite !append_cons in H. simpl in Hlen.
      apply andb_prop in H as [_ H]. apply (IH a b); [lia | exact H]. }
    destruct (Utf8.between 240 244 b0); [|discriminate H].
    destruct a as [|b1 [|b2 [|b3 a]]];
      [misplaced_slash H | misplaced_slash H | misplaced_slash H |].
    rewrite !append_cons in H. simpl in Hlen.
    apply andb_prop in H as [_ H]. apply (IH a b); [lia | exact H].
Qed.

Lemma without_last_segment_slash (s : string) :
  Spec.has_slash s = true -> exists a, Spec.without_last_segment s = a +:+ "/".
Proof.
  induction s as [|c s IH]; simpl; [discriminate|].
  destruct (Spec.has_slash s).
  - intros _. destruct (IH eq_refl) as [a ->]. now exists (String c a).
  - rewrite orb_false_r. intros ->. now exists "".
Qed.

Lemma without_last_segment_none (s : string) :
  Spec.has_slash s = false -> Spec.without_last_segment s = "".
Proof.
  induction s as [|c s IH]; simpl; [reflexivity|].
  intros H. apply orb_false_elim in H as [-> ->]. reflexivity.
Qed.

(** The final path segment of well-formed text is well-formed. *)
Lemma valid_last_segment (s : string) :
  Utf8.valid s = true -> Utf8.valid (Spec.last_segment s) = true.
Proof.
  intros H. pose proof (split_last_segment s) as Hs.
  destruct (Spec.has_slash s) eqn:Hslash.
  - destruct (without_last_segment_slash s Hslash) as [a Ha].
    rewrite Ha, append_assoc in Hs. rewrite Hs in H.
    now apply (valid_after_slash (String.length a) a).
  - rewrite (without_last_segment_none s Hslash), append_nil_l in Hs.
    now rewrite <- Hs.
Qed.

(** C6, amended.  When the final path segment of the base URL has two
    characters, as in [.../Api/V8], the token endpoint is the base URL with
    that segment replaced by [access_token].  The base URL is a [str]: its
    bytes are well-formed UTF-8, and the two characters are counted as
    Python counts them. *)
Theorem tk_url_two_character_segment (config : PySuiteCRMConfig) :
  Utf8.valid (url config) = true ->
  Py.len (Spec.last_segment (url config)) = 2 ->
  SuiteCRM.tk_url config = Spec.token_endpoint (url config).
Proof.
  intros Hvalid Hlen. unfold SuiteCRM.tk_url, Spec.token_endpoint. f_equal.
  rewrite (split_last_segment (url config)) at 1.
  rewrite <- Hlen. apply drop_last_chars.
  now apply valid_begins_char, valid_last_segment.
Qed.

Lemma tk_url_two_character_segment_witness :
  SuiteCRM.tk_url Sample.config = "https://crm.example.com/Api/access_token"
  /\ SuiteCRM.tk_url Sample.config = Spec.token_endpoint (url Sample.config)
  /\ SuiteCRM.tk_url {| url := "https://h/Api/éö"; client_id := "id";
                        client_secret := "secret" |}
     = "https://h/Api/access_token".
Proof.
  split; [reflexivity|]. split.
  - apply (tk_url_two_character_segment Sample.config); reflexivity.
  - apply (tk_url_two_character_segment
             {| url := "https://h/Api/éö"; client_id := "id";
                client_secret := "secret" |}); reflexivity.
Defined.

(** A segment of one character that takes two bytes: the slash before it
    goes too. *)
Example tk_url_one_character_segment :
  SuiteCRM.tk_url {| url := "https://h/Api/é"; client_id := "id";
                     client_secret := "secret" |}
  = "https://h/Apiaccess_token".
Proof. reflexivity. Qed.

(** ** The token file *)

(** C8, at the failing input.  The load step opens the file with mode
    [w+], which truncates it: whatever was saved, the read returns the empty
    string and the file is left empty. *)
Theorem load_after_save_is_empty (x : string) (w : world) :
  (TokenStore.save x ;;; TokenStore.load) w = (Ret "", set_token_file (Some "") w).
Proof. reflexivity. Qed.

Lemma load_after_clear_is_empty (w : world) :
  (TokenStore.clear ;;; TokenStore.load) w = (Ret "", set_token_file (Some "") w).
Proof. reflexivity. Qed.

(** A new client never adopts the saved token: [_login] always asks the
    identity provider for a new one. *)
Lemma login_ignores_saved_token (config : PySuiteCRMConfig) (w : world)
      (tok : string) (rest : list (exn + string)) :
  session w = None -> idp w = inr tok :: rest ->
  SuiteCRM._login config w
  = (Ret tt,
     {| net := net w; idp := rest; token_file := Some tok; session := Some tok;
        trace := trace w ++ [FetchToken (SuiteCRM.tk_url config) (client_id config)
                                        (client_secret config)] |}).
Proof.
  intros Hs Hi.
  unfold SuiteCRM._login, SuiteCRM._refresh_token, TokenStore.load, TokenStore.save,
    bind, gets, modify, try_except, fetch_token, open_w_plus, file_read, file_write.
  rewrite Hs. simpl. rewrite Hi. reflexivity.
Qed.

(** ** Steady computations *)

Section Steady.

Context {A B : Type}.

Lemma steady_ret (a : A) : steady (ret a).
Proof. intros w. split; [discriminate|]. exists []. simpl. now rewrite app_nil_r. Qed.

Lemma steady_raise (e : exn) : steady (@raise A e).
Proof. intros w. split; [discriminate|]. exists []. simpl. now rewrite app_nil_r. Qed.

Lemma steady_lift (r : exn + A) : steady (lift r).
Proof. destruct r; [apply steady_raise | apply steady_ret]. Qed.

Lemma steady_gets (f : world -> A) : steady (gets f).
Proof. intros w. split; [discriminate|]. exists []. simpl. now rewrite app_nil_r. Qed.

Lemma steady_bind (m : M A) (k : A -> M B) :
  steady m -> (forall a, steady (k a)) -> steady (bind m k).
Proof.
  intros Hm Hk w. unfold bind.
  destruct (Hm w) as [Hne [tl Htl]].
  destruct (m w) as [[a|e|] w1]; simpl in *.
  - destruct (Hk a w1) as [Hne' [tl' Htl']]. split; [exact Hne'|].
    exists (tl ++ tl')%list. now rewrite Htl', Htl, app_assoc.
  - split; [discriminate | eauto].
  - congruence.
Qed.

Lemma steady_try_except (m : M A) (handler : exn -> option (M A)) :
  steady m -> (forall e h, handler e = Some h -> steady h) ->
  steady (try_except m handler).
Proof.
  intros Hm Hh w. unfold try_except.
  destruct (Hm w) as [Hne [tl Htl]].
  destruct (m w) as [[a|e|] w1]; simpl in *.
  - split; [discriminate | eauto].
  - destruct (handler e) as [h|] eqn:He.
    + destruct (Hh e h He w1) as [Hne' [tl' Htl']]. split; [exact Hne'|].
      exists (tl ++ tl')%list. now rewrite Htl', Htl, app_assoc.
    + split; [discriminate | eauto].
  - congruence.
Qed.

(** A handler runs where the body stopped, and what follows the [try]
    statement runs after either of them. *)
Lemma bind_try_except (m : M A) (handler : exn -> option (M A)) (k : A -> M B)
      (w : world) :
  bind (try_except m handler) k w
  = match m w with
    | (Ret a, w1) => k a w1
    | (Raise e, w1) =>
        match handler e with
        | Some h => bind h k w1
        | None => (Raise e, w1)
        end
    | (Timeout, w1) => (Timeout, w1)
    end.
Proof.
  unfold bind, try_except. destruct (m w) as [[a|e|] w1]; try reflexivity.
  now destruct (handler e).
Qed.

End Steady.

Lemma steady_file (f : option string) : steady (modify (set_token_file f)).
Proof. intros w. split; [discriminate|]. exists []. simpl. now rewrite app_nil_r. Qed.

Lemma steady_session (s : option string) : steady (modify (set_session s)).
Proof. intros w. split; [discriminate|]. exists []. simpl. now rewrite app_nil_r. Qed.

Lemma steady_the_method (m u : string) (d : option body) : steady (the_method m u d).
Proof.
  intros w. unfold the_method.
  destruct (net w) as [|[e|r] rest]; (split; [discriminate | eauto]).
Qed.

Lemma steady_fetch_token (t i c : string) : steady (fetch_token t i c).
Proof.
  intros w. unfold fetch_token. destruct (session w).
  - destruct (idp w) as [|[e|tok] rest]; (split; [discriminate | eauto]).
  - split; [discriminate|]. exists []. simpl. now rewrite app_nil_r.
Qed.

Lemma steady_save (x : string) : steady (TokenStore.save x).
Proof. apply steady_bind; [apply steady_file | intros _; apply steady_file]. Qed.

Lemma steady_clear : steady TokenStore.clear.
Proof. apply steady_bind; [apply steady_file | intros _; apply steady_file]. Qed.

Lemma steady_refresh (config : PySuiteCRMConfig) : steady (SuiteCRM._refresh_token config).
Proof.
  unfold SuiteCRM._refresh_token.
  apply steady_bind; [|intros _; apply steady_bind;
                               [apply steady_gets | intros t; apply steady_save]].
  apply steady_try_except; [apply steady_fetch_token|].
  intros e h He. destruct e; inversion He; apply steady_raise.
Qed.

(** ** Arithmetic of the page count *)

(** [ceil_div n p] is the least [k] with [n <= k * p]. *)
Lemma ceil_div_spec (n p : Z) :
  (0 < p)%Z ->
  ((Py.ceil_div n p - 1) * p < n <= Py.ceil_div n p * p)%Z.
Proof.
  intros Hp. unfold Py.ceil_div.
  pose proof (Z.div_mod (- n) p ltac:(lia)) as Hdm.
  pose proof (Z.mod_pos_bound (- n) p Hp) as Hb.
  nia.
Qed.

Lemma ceil_div_unique (n p k : Z) :
  (0 < p)%Z -> ((k - 1) * p < n <= k * p)%Z -> Py.ceil_div n p = k.
Proof.
  intros Hp Hk. pose proof (ceil_div_spec n p Hp) as Hc. nia.
Qed.

(** When [p] divides [n] the count is the quotient. *)
Lemma ceil_div_exact (q p : Z) : (0 < p)%Z -> Py.ceil_div (q * p) p = q.
Proof. intros Hp. apply ceil_div_unique; [exact Hp | nia]. Qed.

Lemma range_from_one (k : nat) :
  Py.range 1 (Z.of_nat k + 1) = map Z.of_nat (seq 1 k).
Proof.
  unfold Py.range. replace (Z.to_nat (Z.of_nat k + 1 - 1)) with k by lia.
  rewrite <- seq_shift, map_map. apply map_ext. intros i. lia.
Qed.

(** ** [request] *)

Section Request.

Variable json_loads : string -> exn + json.
Variable session_hasattr : string -> bool.
Variable config : PySuiteCRMConfig.
Variable ceil_beyond : Z -> Z -> exn + Z.

Local Abbreviation request := (SuiteCRM.request json_loads session_hasattr config).
Local Abbreviation respond := (SuiteCRM.respond json_loads).
Local Abbreviation refresh := (SuiteCRM._refresh_token config).
Local Abbreviation fetch_event :=
  (FetchToken (SuiteCRM.tk_url config) (client_id config) (client_secret config)).

(** The world after a successful refresh. *)
Local Abbreviation refreshed tok rest w :=
  {| net := net w; idp := rest; token_file := Some tok; session := Some tok;
     trace := trace w ++ [fetch_event] |}.

Lemma refresh_ok (w : world) (tok : string) (rest : list (exn + string)) :
  is_Some (session w) -> idp w = inr tok :: rest ->
  refresh w = (Ret tt, refreshed tok rest w).
Proof.
  intros [s Hs] Hi.
  unfold SuiteCRM._refresh_token, TokenStore.save, bind, gets, modify,
    try_except, fetch_token, open_w_plus, file_write.
  rewrite Hs, Hi. reflexivity.
Qed.

Lemma send_eq (m u : string) (p : json) (b : body) :
  SuiteCRM.send m u p b = the_method m u (SuiteCRM.data_arg p b).
Proof. unfold SuiteCRM.send, SuiteCRM.data_arg. now destruct (SuiteCRM.no_parameters p). Qed.

(** The response at the head of the script is not a 401: no refresh, and
    the response is processed. *)
Lemma request_plain (u m : string) (p : json) (w : world) (r : response)
      (rest : list (exn + response)) :
  is_Some (session w) -> session_hasattr m = true ->
  net w = inr r :: rest -> status_code r <> 401%Z ->
  request u m p w
  = respond r
      (set_net rest
         (log (Call m (Quote.quote u)
                    (SuiteCRM.data_arg p (Dumps (JObj [("data", p)])))) w)).
Proof.
  intros Hs Hm Hn Hr.
  unfold SuiteCRM.request, SuiteCRM.request_fuel, bind, gets, try_except.
  rewrite bool_decide_eq_true_2 by exact Hs. rewrite Hm. simpl.
  rewrite send_eq. unfold the_method. rewrite Hn.
  apply Z.eqb_neq in Hr. rewrite Hr. reflexivity.
Qed.

Lemma respond_answers (r : response) (j : json) (w : world) :
  SuiteCRM.answers json_loads r j -> respond r w = (Ret (Some j), w).
Proof.
  intros (H401 & Hdb & Hj). unfold SuiteCRM.respond, bind.
  apply Z.eqb_neq in H401. now rewrite H401, Hdb, Hj.
Qed.

(** Looking at a response changes nothing. *)
Lemma respond_world (r : response) (w : world) : snd (respond r w) = w.
Proof.
  unfold SuiteCRM.respond, bind.
  destruct (status_code r =? 401)%Z; [reflexivity|].
  destruct (SuiteCRM.database_failure r) as [e|[|]]; try reflexivity.
  now destruct (json_loads (content r)).
Qed.

Lemma request_answers (u m : string) (p : json) (w : world) (r : response)
      (j : json) (rest : list (exn + response)) :
  is_Some (session w) -> session_hasattr m = true ->
  net w = inr r :: rest -> SuiteCRM.answers json_loads r j ->
  request u m p w
  = (Ret (Some j),
     set_net rest
       (log (Call m (Quote.quote u)
                  (SuiteCRM.data_arg p (Dumps (JObj [("data", p)])))) w)).
Proof.
  intros Hs Hm Hn Ha.
  rewrite (request_plain u m p w r rest Hs Hm Hn) by apply Ha.
  now apply respond_answers.
Qed.

(** After one pass the counter is 1 and the loop is over, whatever the
    fuel. *)
Lemma revoked_loop_done (fuel : nat) (m u : string) (p : json) (data : response) :
  SuiteCRM.revoked_loop config fuel m u p 1 data = ret data.
Proof. destruct fuel; simpl; now rewrite andb_false_r. Qed.

(** The first response is a 401 and the refresh succeeds: one refresh,
    one more call, and whatever that call gives is final. *)
Lemma request_revoked (u m : string) (p : json) (w : world) (r1 : response)
      (o : exn + response) (rest : list (exn + response))
      (tok : string) (rest' : list (exn + string)) :
  is_Some (session w) -> session_hasattr m = true ->
  net w = inr r1 :: o :: rest -> status_code r1 = 401%Z ->
  idp w = inr tok :: rest' ->
  let w' :=
    {| net := rest; idp := rest'; token_file := Some tok; session := Some tok;
       trace := trace w ++
                [Call m (Quote.quote u)
                      (SuiteCRM.data_arg p (Dumps (JObj [("data", p)])));
                 fetch_event;
                 Call m (Quote.quote u) (SuiteCRM.data_arg p (RespObj r1))] |} in
  request u m p w
  = match o with
    | inr r2 => respond r2 w'
    | inl e => (Raise e, w')
    end.
Proof.
  intros Hs Hm Hn Hr Hi w'.
  unfold SuiteCRM.request, SuiteCRM.request_fuel, bind, gets, try_except.
  rewrite bool_decide_eq_true_2 by exact Hs. rewrite Hm. simpl.
  rewrite !send_eq. unfold the_method at 1. rewrite Hn, Hr. simpl.
  unfold bind.
  rewrite (refresh_ok _ tok rest') by (simpl; auto).
  rewrite send_eq. unfold the_method. simpl.
  destruct o as [e|r2]; simpl.
  - subst w'. unfold log, set_net. simpl. now rewrite <- !app_assoc.
  - rewrite andb_false_r. unfold ret.
    subst w'. unfold log, set_net. simpl. now rewrite <- !app_assoc.
Qed.

(** C1, at the failing input.  A call with a payload gets a 401: after
    the one refresh the call is issued once more, but its [data=]
    argument is the 401 response object kept in the variable [data], not
    the serialized payload of the first call. *)
Theorem request_revoked_resends_response (u m : string) (p : json) (w : world)
        (r1 : response) (o : exn + response) (rest : list (exn + response))
        (tok : string) (rest' : list (exn + string)) :
  is_Some (session w) -> session_hasattr m = true ->
  SuiteCRM.no_parameters p = false ->
  net w = inr r1 :: o :: rest -> status_code r1 = 401%Z ->
  idp w = inr tok :: rest' ->
  trace (snd (request u m p w))
  = (trace w ++
     [Call m (Quote.quote u) (Some (Dumps (JObj [("data", p)])));
      fetch_event;
      Call m (Quote.quote u) (Some (RespObj r1))])%list.
Proof.
  intros Hs Hm Hp Hn Hr Hi.
  rewrite (request_revoked u m p w r1 o rest tok rest' Hs Hm Hn Hr Hi).
  unfold SuiteCRM.data_arg. rewrite Hp.
  destruct o as [e|r2]; [reflexivity|].
  now rewrite respond_world.
Qed.

(** Without a payload the retried call is the same call, and a second 401
    ends the call with the exit message, after one refresh and two calls
    in all. *)
Lemma request_revoked_twice (u m : string) (w : world)
      (r1 r2 : response) (rest : list (exn + response))
      (tok : string) (rest' : list (exn + string)) :
  is_Some (session w) -> session_hasattr m = true ->
  net w = inr r1 :: inr r2 :: rest ->
  status_code r1 = 401%Z -> status_code r2 = 401%Z ->
  idp w = inr tok :: rest' ->
  request u m (JStr "") w
  = (Raise (SystemExit SuiteCRM.revoked_msg),
     {| net := rest; idp := rest'; token_file := Some tok; session := Some tok;
        trace := trace w ++
                 [Call m (Quote.quote u) None; fetch_event;
                  Call m (Quote.quote u) None] |}).
Proof.
  intros Hs Hm Hn Hr1 Hr2 Hi.
  rewrite (request_revoked u m _ w r1 _ rest tok rest' Hs Hm Hn Hr1 Hi).
  unfold SuiteCRM.respond. now rewrite Hr2.
Qed.

(** The retry after an expiry is a 401: the revoked-token path then runs
    as for any other 401, with its own refresh and one more call. *)
Lemma request_expired_then_revoked (u m : string) (p : json) (w : world)
      (r1 : response) (o : exn + response) (rest : list (exn + response))
      (tok1 tok2 : string) (rest' : list (exn + string)) :
  is_Some (session w) -> session_hasattr m = true ->
  net w = inl TokenExpiredError :: inr r1 :: o :: rest ->
  status_code r1 = 401%Z ->
  idp w = inr tok1 :: inr tok2 :: rest' ->
  let call :=
    Call m (Quote.quote u) (SuiteCRM.data_arg p (Dumps (JObj [("data", p)]))) in
  let w' :=
    {| net := rest; idp := rest'; token_file := Some tok2; session := Some tok2;
       trace := trace w ++
                [call; fetch_event; call; fetch_event;
                 Call m (Quote.quote u) (SuiteCRM.data_arg p (RespObj r1))] |} in
  request u m p w
  = match o with
    | inr r2 => respond r2 w'
    | inl e => (Raise e, w')
    end.
Proof.
  intros Hs Hm Hn Hr Hi call w'.
  unfold SuiteCRM.request, SuiteCRM.request_fuel, bind, gets, try_except.
  rewrite bool_decide_eq_true_2 by exact Hs. rewrite Hm. simpl.
  rewrite !send_eq. unfold the_method at 1. rewrite Hn. simpl.
  unfold bind.
  rewrite (refresh_ok _ tok1 (inr tok2 :: rest')) by (simpl; auto).
  unfold the_method at 1. simpl. rewrite Hr. simpl. unfold bind.
  rewrite send_eq. unfold the_method. simpl.
  destruct o as [e|r2]; simpl.
  - subst w' call. unfold log, set_net. simpl. now rewrite <- !app_assoc.
  - rewrite andb_false_r. unfold ret.
    subst w' call. unfold log, set_net. simpl. now rewrite <- !app_assoc.
Qed.

(** The first attempt raises [TokenExpiredError] and the second one gives
    anything but a 401. *)
Lemma request_expired_retry (u m : string) (p : json) (w : world)
        (o : exn + response) (rest : list (exn + response))
        (tok : string) (rest' : list (exn + string)) :
  is_Some (session w) -> session_hasattr m = true ->
  net w = inl TokenExpiredError :: o :: rest ->
  idp w = inr tok :: rest' ->
  (forall r, o = inr r -> status_code r <> 401%Z) ->
  let call :=
    Call m (Quote.quote u) (SuiteCRM.data_arg p (Dumps (JObj [("data", p)]))) in
  let w' :=
    {| net := rest; idp := rest'; token_file := Some tok; session := Some tok;
       trace := trace w ++ [call; fetch_event; call] |} in
  request u m p w
  = match o with
    | inr r => respond r w'
    | inl e => (Raise e, w')
    end.
Proof.
  intros Hs Hm Hn Hi Ho call w'.
  unfold SuiteCRM.request, SuiteCRM.request_fuel, bind, gets, try_except.
  rewrite bool_decide_eq_true_2 by exact Hs. rewrite Hm. simpl.
  rewrite !send_eq. unfold the_method at 1. rewrite Hn. simpl.
  unfold bind.
  rewrite (refresh_ok _ tok rest') by (simpl; auto).
  unfold the_method. simpl.
  destruct o as [e|r]; simpl.
  - subst w' call. unfold log, set_net. simpl. now rewrite <- !app_assoc.
  - specialize (Ho r eq_refl). apply Z.eqb_neq in Ho. rewrite Ho. simpl.
    subst w' call. unfold log, set_net. simpl. now rewrite <- !app_assoc.
Qed.

(** C4, amended.  The first attempt raises [TokenExpiredError]: the token
    is refreshed once and the same call is issued once more, and nothing
    after that handles an expiry.  An exception of the second attempt, a
    second [TokenExpiredError] included, is raised to the caller without
    another refresh or call.  A response goes on as the first response of
    any call does, through the loop for revoked tokens: when it is not a
    401 it is processed at once, and the call has made one refresh and one
    re-issue. *)
Theorem request_expired_first_issue (u m : string) (p : json) (w : world)
        (o : exn + response) (rest : list (exn + response))
        (tok : string) (rest' : list (exn + string)) :
  is_Some (session w) -> session_hasattr m = true ->
  net w = inl TokenExpiredError :: o :: rest ->
  idp w = inr tok :: rest' ->
  let call :=
    Call m (Quote.quote u) (SuiteCRM.data_arg p (Dumps (JObj [("data", p)]))) in
  let w' :=
    {| net := rest; idp := rest'; token_file := Some tok; session := Some tok;
       trace := trace w ++ [call; fetch_event; call] |} in
  (forall e, o = inl e -> request u m p w = (Raise e, w'))
  /\ (forall r, o = inr r ->
       request u m p w
       = (data <- SuiteCRM.revoked_loop config 1 m (Quote.quote u) p 0 r ;;
          respond data) w')
  /\ (forall r, o = inr r -> status_code r <> 401%Z -> request u m p w = respond r w').
Proof.
  intros Hs Hm Hn Hi call w'.
  assert (Hgo : forall r, o = inr r ->
            request u m p w
            = (data <- SuiteCRM.revoked_loop config 1 m (Quote.quote u) p 0 r ;;
               respond data) w').
  { intros r ->.
    unfold SuiteCRM.request, SuiteCRM.request_fuel.
    unfold bind at 1, gets. rewrite bool_decide_eq_true_2 by exact Hs.
    rewrite Hm. lazy beta iota delta [andb negb].
    rewrite bind_try_except, !send_eq. unfold the_method at 1. rewrite Hn.
    lazy beta iota zeta. unfold bind at 1. unfold bind at 1.
    rewrite (refresh_ok _ tok rest') by (simpl; auto).
    unfold the_method at 1. simpl net. lazy beta iota zeta.
    subst w' call. unfold log, set_net. simpl. now rewrite <- !app_assoc. }
  split; [|split].
  - intros e ->.
    apply (request_expired_retry u m p w (inl e) rest tok rest' Hs Hm Hn Hi).
    intros r [=].
  - exact Hgo.
  - intros r -> Hr.
    apply (request_expired_retry u m p w (inr r) rest tok rest' Hs Hm Hn Hi).
    now intros r' [= <-].
Qed.

(** C10.  A method name the session has no attribute for: [request]
    returns [None] and leaves everything as it was. *)
Theorem request_unknown_method (u m : string) (p : json) (w : world) :
  session_hasattr m = false -> request u m p w = (Ret None, w).
Proof.
  intros Hm.
  unfold SuiteCRM.request, SuiteCRM.request_fuel, bind, gets.
  now rewrite Hm, andb_false_r.
Qed.

(** *** [request] never runs out of fuel *)

Lemma steady_send (m u : string) (p : json) (b : body) :
  steady (SuiteCRM.send m u p b).
Proof. rewrite send_eq. apply steady_the_method. Qed.

Lemma steady_respond (r : response) : steady (respond r).
Proof.
  unfold SuiteCRM.respond.
  destruct (status_code r =? 401)%Z; [apply steady_raise|].
  apply steady_bind; [apply steady_lift|]. intros [|]; [apply steady_raise|].
  apply steady_bind; [apply steady_lift | intros j; apply steady_ret].
Qed.

Lemma steady_revoked_loop (fuel : nat) (m u : string) (p : json) (data : response) :
  steady (SuiteCRM.revoked_loop config (S fuel) m u p 0 data).
Proof.
  simpl. destruct ((status_code data =? 401)%Z && (0 <? 1)%Z); [|apply steady_ret].
  apply steady_bind; [apply steady_refresh|]. intros _.
  apply steady_bind; [apply steady_send|]. intros data'.
  change (0 + 1)%Z with 1%Z. rewrite revoked_loop_done. apply steady_ret.
Qed.

Lemma steady_request (u m : string) (p : json) : steady (request u m p).
Proof.
  unfold SuiteCRM.request, SuiteCRM.request_fuel.
  apply steady_bind; [apply steady_gets|]. intros s.
  destruct (negb _); [apply steady_ret|].
  apply steady_bind.
  - apply steady_try_except; [apply steady_send|].
    intros e h He. destruct e; inversion He.
    apply steady_bind; [apply steady_refresh | intros _; apply steady_send].
  - intros data. apply steady_bind; [apply steady_revoked_loop|].
    intros data'. apply steady_respond.
Qed.

(** More fuel changes nothing. *)
Lemma request_fuel_enough (fuel : nat) (u m : string) (p : json) (w : world) :
  SuiteCRM.request_fuel json_loads session_hasattr config (S fuel) u m p w
  = request u m p w.
Proof.
  unfold SuiteCRM.request, SuiteCRM.request_fuel, bind.
  destruct (gets session w) as [[s| |] w0]; try reflexivity.
  destruct (negb _); [reflexivity|].
  destruct (try_except _ _ w0) as [[data| |] w1]; try reflexivity.
  simpl. destruct ((status_code data =? 401)%Z && (0 <? 1)%Z); [|reflexivity].
  unfold bind. destruct (refresh w1) as [[[]| |] w2]; try reflexivity.
  destruct (SuiteCRM.send _ _ _ _ w2) as [[data'| |] w3]; try reflexivity.
  change (0 + 1)%Z with 1%Z. rewrite ?revoked_loop_done, ?andb_false_r.
  reflexivity.
Qed.

(** With a session and a known method, the first thing [request] does is
    the call itself. *)
Lemma request_starts_with_call (u m : string) (p : json) (w : world) :
  is_Some (session w) -> session_hasattr m = true ->
  exists tl,
    trace (snd (request u m p w))
    = (trace w ++
       Call m (Quote.quote u) (SuiteCRM.data_arg p (Dumps (JObj [("data", p)])))
       :: tl)%list.
Proof.
  intros Hs Hm.
  unfold SuiteCRM.request, SuiteCRM.request_fuel.
  set (k := fun data : response =>
              data0 <- SuiteCRM.revoked_loop config 1 m (Quote.quote u) p 0 data ;;
              respond data0).
  assert (Hk : forall d, steady (k d)).
  { intros d. apply steady_bind; [apply steady_revoked_loop|].
    intros d'. apply steady_respond. }
  unfold bind at 1, gets. rewrite bool_decide_eq_true_2 by exact Hs.
  rewrite Hm. lazy beta iota delta [andb negb].
  rewrite bind_try_except, !send_eq.
  unfold the_method at 1.
  destruct (net w) as [|[e|r] rest]; lazy beta iota zeta.
  - exists []. reflexivity.
  - destruct e; try (exists []; reflexivity).
    match goal with |- context [bind ?h k ?w1] =>
      assert (Hh : steady (bind h k))
        by (apply steady_bind; [|exact Hk];
            apply steady_bind; [apply steady_refresh|];
            intros _; apply steady_the_method);
      destruct (Hh w1) as [_ [tl Htl]]
    end.
    exists tl. rewrite Htl. simpl. now rewrite <- app_assoc.
  - destruct (Hk r (set_net rest
                      (log (Call m (Quote.quote u)
                              (SuiteCRM.data_arg p (Dumps (JObj [("data", p)])))) w)))
      as [_ [tl Htl]].
    exists tl. rewrite Htl. simpl. now rewrite <- app_assoc.
Qed.

(** *** [_logout] *)

Local Abbreviation logout := (SuiteCRM._logout json_loads session_hasattr config).
Local Abbreviation logout_request :=
  (request (url config +:+ "/logout") "post" (JStr "")).

(** C9, amended.  [_logout] first posts to the percent-encoded
    [<base_url>/logout].  When that request returns, whatever the status
    of the response, the token file is emptied; when it raises or exits,
    [_logout] stops there and the file is not emptied. *)
Theorem logout_clears_when_request_returns (w : world) :
  is_Some (session w) -> session_hasattr "post" = true ->
  (exists tl,
      trace (snd (logout w))
      = (trace w ++ Call "post" (Quote.quote (url config +:+ "/logout")) None :: tl)%list)
  /\ match fst (logout_request w) with
     | Ret _ =>
         logout w = (Ret tt, set_token_file (Some "") (snd (logout_request w)))
     | Raise e => logout w = (Raise e, snd (logout_request w))
     | Timeout => False
     end
  /\ (forall r rest j,
        net w = inr r :: rest -> SuiteCRM.answers json_loads r j ->
        logout w
        = (Ret tt,
           {| net := rest; idp := idp w; token_file := Some ""; session := session w;
              trace := trace w ++
                       [Call "post" (Quote.quote (url config +:+ "/logout")) None] |})).
Proof.
  intros Hs Hm.
  assert (Hshape :
    match fst (logout_request w) with
    | Ret _ => logout w = (Ret tt, set_token_file (Some "") (snd (logout_request w)))
    | Raise e => logout w = (Raise e, snd (logout_request w))
    | Timeout => False
    end).
  { unfold SuiteCRM._logout, bind.
    destruct (steady_request (url config +:+ "/logout") "post" (JStr "") w) as [Hne _].
    destruct (logout_request w) as [[a|e|] w1]; simpl in *;
      [reflexivity | reflexivity | congruence]. }
  split; [|split; [exact Hshape|]].
  - destruct (request_starts_with_call (url config +:+ "/logout") "post" (JStr "") w Hs Hm)
      as [tl Htl].
    destruct (fst (logout_request w)); [| |contradiction]; rewrite Hshape; simpl; eauto.
  - intros r rest j Hn Ha.
    unfold SuiteCRM._logout, bind.
    now rewrite (request_answers _ _ _ w r j rest Hs Hm Hn Ha).
Qed.

(** *** [get] and [get_all] *)

Local Abbreviation get_all :=
  (SuiteCRM.get_all json_loads session_hasattr config ceil_beyond).
Local Abbreviation page_call name rpp :=
  (fun page : Z =>
     Call "get" (Quote.quote (url config +:+ SuiteCRM.page_url name page rpp)) None).
Local Abbreviation probe_call name :=
  (Call "get"
        (Quote.quote (url config +:+ "/module/" +:+ name +:+ "?page[number]=1&page[size]=1"))
        None).

Lemma fetch_pages_answers (name : string) (rpp : Z)
      (resps : list response) (datas : list (list json)) :
  Forall2 (SuiteCRM.answers_page json_loads) resps datas ->
  session_hasattr "get" = true ->
  forall (pages : list Z) (w : world) (result : list json) (rest : list (exn + response)),
    length pages = length resps ->
    is_Some (session w) ->
    net w = (map inr resps ++ rest)%list ->
    SuiteCRM.fetch_pages json_loads session_hasattr config name rpp pages result w
    = (Ret (result ++ concat datas)%list,
       {| net := rest; idp := idp w; token_file := token_file w; session := session w;
          trace := trace w ++ map (page_call name rpp) pages |}).
Proof.
  intros Hall Hm.
  induction Hall as [|r items resps datas (j & d & Ha & Hd & Hit) _ IH];
    intros [|page pages] w result rest Hlen Hs Hn; simpl in Hlen; try discriminate.
  - simpl in *. destruct w; simpl in *. subst. now rewrite !app_nil_r.
  - simpl SuiteCRM.fetch_pages. unfold bind at 1.
    rewrite (request_answers _ _ _ w r j (map inr resps ++ rest) Hs Hm Hn Ha).
    unfold bind at 1. rewrite Hd. simpl lift. unfold ret at 1.
    unfold bind at 1. rewrite Hit. simpl lift. unfold ret at 1.
    rewrite (IH pages _ _ rest); [|lia|exact Hs|reflexivity].
    simpl. now rewrite <- !app_assoc.
Qed.

(** C7, amended.  When the answer to the probe has a [meta] member
    without [total-pages], [get_all] returns the empty list after the probe
    alone; when it has no [meta] member at all, [get_all] raises
    [KeyError('meta')].  With [N] total pages and page size [P], both below
    [2^53] in absolute value so that the division is exact, and [k] the
    ceiling of [N / P], it asks for the pages [1 .. k], each once and in
    order, and returns their records concatenated. *)
Theorem get_all_pages (name : string) (w : world) (probe : response) (j : json) :
  is_Some (session w) -> session_hasattr "get" = true ->
  SuiteCRM.answers json_loads probe j ->
  (forall (P : Z) (meta : json) (rest : list (exn + response)),
      net w = inr probe :: rest ->
      Json.getitem (Some j) "meta" = inr meta ->
      Json.contains "total-pages" meta = inr false ->
      get_all name P w
      = (Ret [],
         {| net := rest; idp := idp w; token_file := token_file w;
            session := session w; trace := trace w ++ [probe_call name] |}))
  /\ (forall (P : Z) (kv : list (string * json)) (rest : list (exn + response)),
        net w = inr probe :: rest ->
        j = JObj kv -> Json.assoc "meta" kv = None ->
        get_all name P w
        = (Raise (KeyError "meta"),
           {| net := rest; idp := idp w; token_file := token_file w;
              session := session w; trace := trace w ++ [probe_call name] |}))
  /\ (forall (N P : Z) (k : nat) (mkv : list (string * json))
             (resps : list response) (datas : list (list json))
             (rest : list (exn + response)),
        net w = (inr probe :: map inr resps ++ rest)%list ->
        Json.getitem (Some j) "meta" = inr (JObj mkv) ->
        Json.assoc "total-pages" mkv = Some (JNum N) ->
        (Z.abs N < 2 ^ 53)%Z -> (0 < P < 2 ^ 53)%Z ->
        ((Z.of_nat k - 1) * P < N <= Z.of_nat k * P)%Z ->
        length resps = k ->
        Forall2 (SuiteCRM.answers_page json_loads) resps datas ->
        get_all name P w
        = (Ret (concat datas),
           {| net := rest; idp := idp w; token_file := token_file w;
              session := session w;
              trace := trace w ++
                       probe_call name
                       :: map (fun i => page_call name P (Z.of_nat i)) (seq 1 k) |})).
Proof.
  intros Hs Hm Ha. split; [|split].
  - intros P meta rest Hn Hmeta Hno.
    unfold SuiteCRM.get_all, bind.
    rewrite (request_answers _ _ _ w probe j rest Hs Hm Hn Ha).
    rewrite Hmeta. simpl. now rewrite Hno.
  - intros P kv rest Hn -> Hmeta.
    unfold SuiteCRM.get_all, bind.
    rewrite (request_answers _ _ _ w probe _ rest Hs Hm Hn Ha).
    simpl. now rewrite Hmeta.
  - intros N P k mkv resps datas rest Hn Hmeta Htotal HN HP Hk Hlen Hall.
    unfold SuiteCRM.get_all. unfold bind at 1.
    rewrite (request_answers _ _ _ w probe j _ Hs Hm Hn Ha).
    unfold bind at 1. rewrite Hmeta. simpl lift. unfold ret at 1.
    unfold bind at 1. unfold Json.contains. rewrite Htotal.
    rewrite bool_decide_eq_true_2 by eauto. simpl lift. unfold ret at 1.
    unfold bind, lift, ret, Json.number. cbn [negb].
    destruct (Z.eqb_spec P 0) as [->|_]; [lia|].
    unfold SuiteCRM.ceil_truediv, Py.exact.
    replace (Z.abs N <? 2 ^ 53)%Z with true by (symmetry; apply Z.ltb_lt; lia).
    replace (Z.abs P <? 2 ^ 53)%Z with true by (symmetry; apply Z.ltb_lt; lia).
    cbn [andb].
    rewrite (ceil_div_unique N P (Z.of_nat k) ltac:(lia) Hk), range_from_one.
    rewrite (fetch_pages_answers name P resps datas Hall Hm _ _ _ rest);
      [| now rewrite length_map, length_seq | exact Hs | reflexivity].
    simpl. rewrite map_map, <- app_assoc. reflexivity.
Qed.

End Request.

(** ** The theorems at work on the sample deployment *)

Lemma request_revoked_resends_response_witness :
  trace (snd (Sample.request "https://crm.example.com/Api/V8/module" "post"
                (JObj [("type", JStr "Contacts")])
                (Sample.world0 [inr (Sample.resp 401 "denied"); inr (Sample.resp 200 "ok")]
                               [inr "tok1"])))
  = [Call "post" "https://crm.example.com/Api/V8/module"
          (Some (Dumps (JObj [("data", JObj [("type", JStr "Contacts")])])));
     FetchToken "https://crm.example.com/Api/access_token" "id" "secret";
     Call "post" "https://crm.example.com/Api/V8/module"
          (Some (RespObj (Sample.resp 401 "denied")))].
Proof.
  refine (request_revoked_resends_response Sample.loads Sample.hasattr Sample.config
            "https://crm.example.com/Api/V8/module" "post"
            (JObj [("type", JStr "Contacts")])
            (Sample.world0 [inr (Sample.resp 401 "denied"); inr (Sample.resp 200 "ok")]
                           [inr "tok1"])
            (Sample.resp 401 "denied") (inr (Sample.resp 200 "ok")) [] "tok1" []
            _ _ _ _ _ _).
  - exists "tok0". reflexivity.
  - vm_compute. reflexivity.
  - reflexivity.
  - reflexivity.
  - reflexivity.
  - reflexivity.
Defined.

(** C4, counterexample.  One expiry signal, raised by the first attempt,
    and a 401 for the second: the token is refreshed twice and the call
    issued three times. *)
Lemma request_expired_then_401_refreshes_twice :
  let w := Sample.world0 [inl TokenExpiredError; inr (Sample.resp 401 "denied");
                          inr (Sample.resp 200 "ok")] [inr "tok1"; inr "tok2"] in
  let run := Sample.request "https://crm.example.com/Api/V8/module" "get" (JStr "") w in
  fst run = Ret (Some (JObj []))
  /\ length (List.filter is_fetch (trace (snd run))) = 2
  /\ length (List.filter is_call (trace (snd run))) = 3.
Proof. repeat split. Qed.

Lemma request_expired_first_issue_witness :
  Sample.request "https://crm.example.com/Api/V8/module" "post"
    (JObj [("type", JStr "Contacts")])
    (Sample.world0 [inl TokenExpiredError; inr (Sample.resp 200 "ok")] [inr "tok1"])
  = (Ret (Some (JObj [])),
     {| net := []; idp := []; token_file := Some "tok1"; session := Some "tok1";
        trace :=
          [Call "post" "https://crm.example.com/Api/V8/module"
                (Some (Dumps (JObj [("data", JObj [("type", JStr "Contacts")])])));
           FetchToken "https://crm.example.com/Api/access_token" "id" "secret";
           Call "post" "https://crm.example.com/Api/V8/module"
                (Some (Dumps (JObj [("data", JObj [("type", JStr "Contacts")])])))] |})
  /\ Sample.request "https://crm.example.com/Api/V8/module" "get" (JStr "")
       (Sample.world0 [inl TokenExpiredError; inl TokenExpiredError;
                       inr (Sample.resp 200 "ok")] [inr "tok1"; inr "tok2"])
     = (Raise TokenExpiredError,
        {| net := [inr (Sample.resp 200 "ok")]; idp := [inr "tok2"];
           token_file := Some "tok1"; session := Some "tok1";
           trace :=
             [Call "get" "https://crm.example.com/Api/V8/module" None;
              FetchToken "https://crm.example.com/Api/access_token" "id" "secret";
              Call "get" "https://crm.example.com/Api/V8/module" None] |}).
Proof.
  split.
  - refine (proj2 (proj2 (request_expired_first_issue Sample.loads Sample.hasattr
              Sample.config "https://crm.example.com/Api/V8/module" "post"
              (JObj [("type", JStr "Contacts")])
              (Sample.world0 [inl TokenExpiredError; inr (Sample.resp 200 "ok")]
                             [inr "tok1"])
              (inr (Sample.resp 200 "ok")) [] "tok1" [] _ _ _ _))
              (Sample.resp 200 "ok") _ _).
    + exists "tok0". reflexivity.
    + vm_compute. reflexivity.
    + reflexivity.
    + reflexivity.
    + reflexivity.
    + simpl. lia.
  - refine (proj1 (request_expired_first_issue Sample.loads Sample.hasattr
              Sample.config "https://crm.example.com/Api/V8/module" "get" (JStr "")
              (Sample.world0 [inl TokenExpiredError; inl TokenExpiredError;
                              inr (Sample.resp 200 "ok")] [inr "tok1"; inr "tok2"])
              (inl TokenExpiredError) [inr (Sample.resp 200 "ok")] "tok1" [inr "tok2"]
              _ _ _ _) TokenExpiredError _).
    + exists "tok0". reflexivity.
    + vm_compute. reflexivity.
    + reflexivity.
    + reflexivity.
    + reflexivity.
Defined.

Lemma request_unknown_method_witness :
  Sample.request "https://crm.example.com/Api/V8/module" "Get" (JStr "")
    (Sample.world0 [inr (Sample.resp 200 "ok")] [inr "tok1"])
  = (Ret None, Sample.world0 [inr (Sample.resp 200 "ok")] [inr "tok1"]).
Proof.
  apply (request_unknown_method Sample.loads Sample.hasattr Sample.config).
  vm_compute. reflexivity.
Defined.

(** C9, counterexample.  The logout request fails, once on the connection
    and once with two 401 answers in a row: in both cases [_logout] does not
    get to the token file, which is not emptied. *)
Lemma logout_failure_leaves_token :
  token_file (snd (Sample._logout
                     (Sample.world0 [inl (OtherError "ConnectionError")] [])))
  = Some "tok0"
  /\ token_file (snd (Sample._logout
                        (Sample.world0 [inr (Sample.resp 401 "denied");
                                        inr (Sample.resp 401 "denied")] [inr "tok1"])))
     = Some "tok1".
Proof. split; vm_compute; reflexivity. Qed.

Lemma logout_clears_when_request_returns_witness :
  Sample._logout (Sample.world0 [inr (Sample.resp 500 "ok")] [])
  = (Ret tt,
     {| net := []; idp := []; token_file := Some ""; session := Some "tok0";
        trace := [Call "post" "https://crm.example.com/Api/V8/logout" None] |}).
Proof.
  destruct (logout_clears_when_request_returns Sample.loads Sample.hasattr Sample.config
              (Sample.world0 [inr (Sample.resp 500 "ok")] []))
    as (_ & _ & H).
  - exists "tok0". reflexivity.
  - vm_compute. reflexivity.
  - apply (H (Sample.resp 500 "ok") [] (JObj [])); [reflexivity|].
    split; [simpl; lia | split; reflexivity].
Defined.

(** C7, counterexample.  The answer to the probe is a document without
    [meta], so it carries no [total-pages]: [get_all] raises and does not
    return the empty list. *)
Lemma get_all_without_meta_raises :
  fst (Sample.get_all "Contacts" 100 (Sample.world0 [inr (Sample.resp 200 "ok")] []))
  = Raise (KeyError "meta").
Proof. reflexivity. Qed.

Lemma get_all_pages_witness :
  Sample.get_all "Contacts" 100
    (Sample.world0 [inr (Sample.resp 200 "empty"); inr (Sample.resp 200 "page-a")] [])
  = (Ret [],
     {| net := [inr (Sample.resp 200 "page-a")]; idp := []; token_file := Some "tok0";
        session := Some "tok0";
        trace := [Call "get"
                    "https://crm.example.com/Api/V8/module/Contacts?page%5Bnumber%5D=1&page%5Bsize%5D=1"
                    None] |})
  /\ Sample.get_all "Contacts" 2
       (Sample.world0 [inr (Sample.resp 200 "probe4"); inr (Sample.resp 200 "page-a");
                       inr (Sample.resp 200 "page-b"); inr (Sample.resp 200 "ok")] [])
     = (Ret [JStr "r1"; JStr "r2"; JStr "r3"; JStr "r4"],
        {| net := [inr (Sample.resp 200 "ok")]; idp := []; token_file := Some "tok0";
           session := Some "tok0";
           trace := [Call "get"
                       "https://crm.example.com/Api/V8/module/Contacts?page%5Bnumber%5D=1&page%5Bsize%5D=1"
                       None;
                     Call "get"
                       "https://crm.example.com/Api/V8/module/Contacts?page%5Bnumber%5D=1&page%5Bsize%5D=2"
                       None;
                     Call "get"
                       "https://crm.example.com/Api/V8/module/Contacts?page%5Bnumber%5D=2&page%5Bsize%5D=2"
                       None] |}).
Proof.
  split.
  - destruct (get_all_pages Sample.loads Sample.hasattr Sample.config Sample.beyond
                "Contacts"
                (Sample.world0 [inr (Sample.resp 200 "empty");
                                inr (Sample.resp 200 "page-a")] [])
                (Sample.resp 200 "empty")
                (JObj [("data", JArr []);
                       ("meta", JObj [("records-on-this-page", JNum 0)])]))
      as (H & _).
    + exists "tok0". reflexivity.
    + vm_compute. reflexivity.
    + split; [simpl; lia | split; reflexivity].
    + apply (H 100%Z (JObj [("records-on-this-page", JNum 0)])
               [inr (Sample.resp 200 "page-a")]); reflexivity.
  - destruct (get_all_pages Sample.loads Sample.hasattr Sample.config Sample.beyond
                "Contacts"
                (Sample.world0 [inr (Sample.resp 200 "probe4");
                                inr (Sample.resp 200 "page-a");
                                inr (Sample.resp 200 "page-b");
                                inr (Sample.resp 200 "ok")] [])
                (Sample.resp 200 "probe4")
                (JObj [("data", JArr []); ("meta", JObj [("total-pages", JNum 4)])]))
      as (_ & _ & H).
    + exists "tok0". reflexivity.
    + vm_compute. reflexivity.
    + split; [simpl; lia | split; reflexivity].
    + apply (H 4%Z 2%Z 2 [("total-pages", JNum 4)]
               [Sample.resp 200 "page-a"; Sample.resp 200 "page-b"]
               [[JStr "r1"; JStr "r2"]; [JStr "r3"; JStr "r4"]]
               [inr (Sample.resp 200 "ok")]);
        try reflexivity; try lia.
      repeat constructor;
        (eexists _, _; split; [split; [simpl; lia | split; reflexivity] | split; reflexivity]).
Defined.

(** * Further properties of the client *)

(** ** Percent-encoding *)

Lemma quote_cons (c : ascii) (s : string) :
  Quote.quote (String c s) = Quote.quote_byte c +:+ Quote.quote s.
Proof. reflexivity. Qed.

(** Encoding distributes over concatenation: the base URL and the path
    that a method appends to it are encoded independently. *)
Lemma quote_append (a b : string) :
  Quote.quote (a +:+ b) = Quote.quote a +:+ Quote.quote b.
Proof.
  induction a as [|c a IH]; [reflexivity|].
  rewrite append_cons, !quote_cons, IH. now rewrite append_assoc.
Qed.

Lemma head_quote_byte (c : ascii) (s : string) :
  Unquote.head (Quote.quote_byte c +:+ s) = Some (c, s).
Proof.
  destruct c as [[] [] [] [] [] [] [] []]; reflexivity.
Qed.

Lemma quote_injective (a b : string) :
  Quote.quote a = Quote.quote b -> a = b.
Proof.
  revert b. induction a as [|c a IH]; intros [|d b] H.
  - reflexivity.
  - rewrite quote_cons in H. apply (f_equal Unquote.head) in H.
    rewrite head_quote_byte in H. discriminate.
  - rewrite quote_cons in H. apply (f_equal Unquote.head) in H.
    rewrite head_quote_byte in H. discriminate.
  - rewrite !quote_cons in H. apply (f_equal Unquote.head) in H.
    rewrite !head_quote_byte in H. injection H as -> H.
    f_equal. now apply IH.
Qed.

(** X1.  Encoding loses nothing: two different URLs are sent as two
    different encoded URLs. *)
Theorem quote_distinct (a b : string) :
  a <> b -> Quote.quote a <> Quote.quote b.
Proof. intros Hne H. apply Hne. now apply quote_injective. Qed.

Lemma quote_distinct_witness :
  Quote.quote "/module/A b" <> Quote.quote "/module/A%20b".
Proof. apply (quote_distinct "/module/A b" "/module/A%20b"). discriminate. Defined.

(** The characters an encoded URL is made of. *)
Lemma quote_byte_alphabet (c : ascii) :
  forallb (fun x => Quote.always_safe x || bool_decide (x ∈ Quote.safe) || Ascii.eqb x "%")
          (list_ascii_of_string (Quote.quote_byte c)) = true.
Proof.
  destruct c as [[] [] [] [] [] [] [] []]; vm_compute; reflexivity.
Qed.

Lemma list_ascii_of_append (a b : string) :
  list_ascii_of_string (a +:+ b)
  = (list_ascii_of_string a ++ list_ascii_of_string b)%list.
Proof.
  induction a as [|c a IH]; [reflexivity|].
  rewrite append_cons. simpl. f_equal. exact IH.
Qed.

(** X2.  An encoded URL holds only letters, digits, [_.-~], the separators
    [/:?=&] and [%]: no space, bracket, quote or byte above 127 is ever
    sent. *)
Theorem quote_alphabet (s : string) :
  forallb (fun x => Quote.always_safe x || bool_decide (x ∈ Quote.safe) || Ascii.eqb x "%")
          (list_ascii_of_string (Quote.quote s)) = true.
Proof.
  induction s as [|c s IH]; [reflexivity|].
  rewrite quote_cons, list_ascii_of_append, forallb_app, IH, quote_byte_alphabet.
  reflexivity.
Qed.

Lemma quote_length (s : string) : String.length s <= String.length (Quote.quote s).
Proof.
  induction s as [|c s IH]; [simpl; lia|].
  rewrite quote_cons, append_length. simpl.
  assert (1 <= String.length (Quote.quote_byte c)).
  { unfold Quote.quote_byte. destruct (_ || _); simpl; lia. }
  lia.
Qed.

(** X3.  A URL is left as it is exactly when all its characters are
    letters, digits, [_.-~] or the separators [/:?=&]. *)
Theorem quote_fixed_iff (s : string) :
  Quote.quote s = s
  <-> forallb (fun x => Quote.always_safe x || bool_decide (x ∈ Quote.safe))
              (list_ascii_of_string s) = true.
Proof.
  induction s as [|c s IH]; [simpl; tauto|].
  rewrite quote_cons. simpl forallb.
  destruct (Quote.always_safe c || bool_decide (c ∈ Quote.safe)) eqn:Hc.
  - unfold Quote.quote_byte. rewrite Hc. simpl. rewrite <- IH.
    split; [intros [= H]; exact H | intros ->; reflexivity].
  - simpl. split; [|discriminate].
    unfold Quote.quote_byte. rewrite Hc. intros H.
    rewrite !append_cons in H. injection H as _ H.
    apply (f_equal String.length) in H. simpl in H.
    rewrite append_length in H. simpl in H.
    pose proof (quote_length s). lia.
Qed.

(** ** The query of [Module.get] *)

Lemma add_filter_text (url : string) (f : string * Query.filter_value) :
  Query.add_filter url f
  = match Term.text f with
    | inl e => inl e
    | inr t => inr (url +:+ t +:+ "and&")
    end.
Proof.
  destruct f as [field [v|d]]; unfold Query.add_filter, Term.text.
  - now rewrite !append_assoc.
  - destruct (Query.getitem d "operator") as [e|op]; [reflexivity|].
    destruct (Query.getitem Query.operators op) as [e|opname]; [reflexivity|].
    destruct (Query.getitem d "value") as [e|v]; [reflexivity|].
    now rewrite !append_assoc.
Qed.

Lemma append_nil_r (s : string) : s +:+ "" = s.
Proof.
  induction s as [|c s IH]; [reflexivity|].
  rewrite append_cons. f_equal. exact IH.
Qed.

(** All terms, each followed by the conjunction. *)
Lemma add_filters_texts (fs : Query.filters) :
  forall url,
    Query.add_filters url fs
    = match Term.texts fs with
      | inl e => inl e
      | inr ts => inr (url +:+ foldr (fun t acc => t +:+ "and&" +:+ acc) "" ts)
      end.
Proof.
  induction fs as [|f fs IH]; intros url; simpl.
  - now rewrite append_nil_r.
  - rewrite add_filter_text. destruct (Term.text f) as [e|t]; [reflexivity|].
    rewrite IH. destruct (Term.texts fs) as [e|ts]; [reflexivity|].
    simpl. now rewrite !append_assoc.
Qed.

Lemma terms_end_with_conjunction (ts : list string) :
  ts <> [] ->
  foldr (fun t acc => t +:+ "and&" +:+ acc) "" ts = Py.join "and&" ts +:+ "and&".
Proof.
  induction ts as [|t ts IH]; [congruence|]. intros _.
  destruct ts as [|t' ts].
  - reflexivity.
  - change (foldr _ _ (t :: t' :: ts))
      with (t +:+ "and&" +:+ foldr (fun t acc => t +:+ "and&" +:+ acc) "" (t' :: ts)).
    rewrite IH by discriminate.
    change (Py.join "and&" (t :: t' :: ts))
      with (t +:+ "and&" +:+ Py.join "and&" (t' :: ts)).
    now rewrite !append_assoc.
Qed.

(** X4.  When every filter is well formed, the query is the base followed
    by the terms of the filters in keyword order, separated by [and&] with
    nothing after the last one, and then the sort clause. *)
Theorem build_terms_in_order (name : string) (fields : option (list string))
        (sort : string) (fs : Query.filters) (ts : list string) :
  fs <> [] -> Term.texts fs = inr ts ->
  length ts = length fs
  /\ Query.build name fields sort fs
     = inr (Query.add_sort (Query.base_url name fields +:+ Py.join "and&" ts) sort).
Proof.
  intros Hne Hts. split.
  - clear Hne. revert ts Hts. induction fs as [|f fs IH]; intros ts Hts; simpl in Hts.
    + now injection Hts as <-.
    + destruct (Term.text f); [discriminate|].
      destruct (Term.texts fs) as [|ts']; [discriminate|].
      injection Hts as <-. simpl. f_equal. now apply IH.
  - unfold Query.build. rewrite add_filters_texts, Hts.
    assert (Hts' : ts <> []).
    { destruct fs as [|f fs]; [congruence|]. simpl in Hts.
      destruct (Term.text f); [discriminate|].
      destruct (Term.texts fs); [discriminate|]. injection Hts as <-. discriminate. }
    rewrite (terms_end_with_conjunction ts Hts'), <- append_assoc.
    now rewrite (drop_last_append _ "and&") by reflexivity.
Qed.

Lemma build_terms_in_order_witness :
  Query.build "Leads" None ""
    [("status", Query.Lit "New");
     ("amount", Query.Dict (<["operator" := "<="]> (<["value" := "10"]> ∅)));
     ("city", Query.Lit "Rome")]
  = inr "/module/Leads?filter[status][eq]=Newand&[amount][LTE]=10and&[city][eq]=Rome".
Proof.
  refine (proj2 (build_terms_in_order "Leads" None ""
            [("status", Query.Lit "New");
             ("amount", Query.Dict (<["operator" := "<="]> (<["value" := "10"]> ∅)));
             ("city", Query.Lit "Rome")]
            ["[status][eq]=New"; "[amount][LTE]=10"; "[city][eq]=Rome"] _ _)).
  - discriminate.
  - vm_compute. reflexivity.
Defined.

Lemma texts_first_error (pre post : Query.filters) (f : string * Query.filter_value)
      (ts : list string) (e : exn) :
  Term.texts pre = inr ts -> Term.text f = inl e ->
  Term.texts (pre ++ f :: post)%list = inl e.
Proof.
  revert ts. induction pre as [|g pre IH]; intros ts Hpre Hf; simpl in *.
  - now rewrite Hf.
  - destruct (Term.text g); [discriminate|].
    destruct (Term.texts pre) as [|ts'] eqn:Hp; [discriminate|].
    now rewrite (IH ts' eq_refl Hf).
Qed.

(** X5.  [Module.get] raises the exception of the first malformed filter
    in keyword order; the filters after it are not looked at, no call is
    made and nothing changes. *)
Theorem get_first_malformed_filter
        (json_loads : string -> exn + json) (session_hasattr : string -> bool)
        (config : PySuiteCRMConfig) (name : string) (fields : option (list string))
        (sort : string) (pre post : Query.filters) (f : string * Query.filter_value)
        (ts : list string) (e : exn) (w : world) :
  Term.texts pre = inr ts -> Term.text f = inl e ->
  SuiteCRM.get json_loads session_hasattr config name fields sort
    (pre ++ f :: post)%list w
  = (Raise e, w).
Proof.
  intros Hpre Hf. unfold SuiteCRM.get, Query.build, bind.
  now rewrite add_filters_texts, (texts_first_error pre post f ts e Hpre Hf).
Qed.

Lemma get_first_malformed_filter_witness :
  Sample.get "Leads" None ""
    [("status", Query.Lit "New");
     ("amount", Query.Dict (<["operator" := "=<"]> (<["value" := "10"]> ∅)));
     ("city", Query.Dict ∅)]
    (Sample.world0 [] [])
  = (Raise (KeyError "=<"), Sample.world0 [] []).
Proof.
  refine (get_first_malformed_filter Sample.loads Sample.hasattr Sample.config
            "Leads" None "" [("status", Query.Lit "New")] [("city", Query.Dict ∅)]
            ("amount", Query.Dict (<["operator" := "=<"]> (<["value" := "10"]> ∅)))
            ["[status][eq]=New"] (KeyError "=<") (Sample.world0 [] []) _ _).
  - reflexivity.
  - vm_compute. reflexivity.
Defined.

Lemma texts_app (pre post : Query.filters) (f : string * Query.filter_value)
      (a b : list string) (t : string) :
  Term.texts pre = inr a -> Term.text f = inr t -> Term.texts post = inr b ->
  Term.texts (pre ++ f :: post)%list = inr (a ++ t :: b)%list.
Proof.
  revert a. induction pre as [|g pre IH]; intros a Hpre Hf Hpost; simpl in *.
  - injection Hpre as <-. now rewrite Hf, Hpost.
  - destruct (Term.text g) as [|tg]; [discriminate|].
    destruct (Term.texts pre) as [|a'] eqn:Hp; [discriminate|].
    injection Hpre as <-. now rewrite (IH a' eq_refl Hf Hpost).
Qed.

Lemma build_texts (name : string) (fields : option (list string)) (sort : string)
      (fs : Query.filters) (ts : list string) :
  ts <> [] -> Term.texts fs = inr ts ->
  Query.build name fields sort fs
  = inr (Query.add_sort (Query.base_url name fields +:+ Py.join "and&" ts) sort).
Proof.
  intros Hne Hts. unfold Query.build. rewrite add_filters_texts, Hts.
  rewrite (terms_end_with_conjunction ts Hne), <- append_assoc.
  now rewrite (drop_last_append _ "and&") by reflexivity.
Qed.

(** What [Module.get] does to the world is what its call of [request]
    does. *)
Lemma get_world (json_loads : string -> exn + json) (session_hasattr : string -> bool)
      (config : PySuiteCRMConfig) (name : string) (fields : option (list string))
      (sort : string) (fs : Query.filters) (q : string) (w : world) :
  Query.build name fields sort fs = inr q ->
  snd (SuiteCRM.get json_loads session_hasattr config name fields sort fs w)
  = snd (SuiteCRM.request json_loads session_hasattr config (url config +:+ q)
           "get" (JStr "") w).
Proof.
  intros Hq. unfold SuiteCRM.get. rewrite Hq. unfold bind, lift at 1, ret at 1.
  destruct (SuiteCRM.request _ _ _ _ _ _ w) as [[r|e|] w1]; try reflexivity.
  simpl. now destruct (Json.getitem r "data").
Qed.

(** C3.  A structured filter whose operator is in the table is emitted as
    [[field][OPNAME]=value] with the mapped name: the query [Module.get]
    builds carries that clause at the place of the filter, and the call it
    makes goes to the URL with that query.  With any other operator
    [Module.get] raises [KeyError] for the operator, before any call is
    made and with nothing changed. *)
Theorem get_operator_mapping :
  (forall op opname, (op, opname) ∈ Spec.operator_table ->
     forall (url field v : string) (d : gmap string string),
       d !! "operator" = Some op -> d !! "value" = Some v ->
       Query.add_filter url (field, Query.Dict d)
       = inr (url +:+ "[" +:+ field +:+ "]" +:+ "[" +:+ opname +:+ "]"
                  +:+ "=" +:+ v +:+ "and&"))
  /\ (forall op opname, (op, opname) ∈ Spec.operator_table ->
        forall json_loads session_hasattr config name fields sort
               (earlier later : Query.filters) (before after : list string)
               (field v : string) (d : gmap string string) (w : world),
          d !! "operator" = Some op -> d !! "value" = Some v ->
          Term.texts earlier = inr before -> Term.texts later = inr after ->
          is_Some (session w) -> session_hasattr "get" = true ->
          let clause := "[" +:+ field +:+ "]" +:+ "[" +:+ opname +:+ "]" +:+ "=" +:+ v in
          let query :=
            Query.add_sort
              (Query.base_url name fields
               +:+ Py.join "and&" (before ++ clause :: after)%list) sort in
          Query.build name fields sort (earlier ++ (field, Query.Dict d) :: later)%list
          = inr query
          /\ exists tl,
              trace (snd (SuiteCRM.get json_loads session_hasattr config name fields sort
                            (earlier ++ (field, Query.Dict d) :: later)%list w))
              = (trace w ++
                 Call "get" (Quote.quote (url config +:+ query)) None :: tl)%list)
  /\ (forall op, op ∉ Spec.operator_table.*1 ->
        forall (url field : string) (d : gmap string string),
          d !! "operator" = Some op ->
          Query.add_filter url (field, Query.Dict d) = inl (KeyError op))
  /\ (forall op, op ∉ Spec.operator_table.*1 ->
        forall json_loads session_hasattr config name fields sort
               (earlier later : Query.filters) (before : list string)
               (field : string) (d : gmap string string) (w : world),
          d !! "operator" = Some op -> Term.texts earlier = inr before ->
          SuiteCRM.get json_loads session_hasattr config name fields sort
            (earlier ++ (field, Query.Dict d) :: later)%list w
          = (Raise (KeyError op), w))
  /\ (forall op, op ∉ Spec.operator_table.*1 ->
        forall json_loads session_hasattr config name fields sort
               (fs : Query.filters) (field : string) (d : gmap string string) (w : world),
          (field, Query.Dict d) ∈ fs -> d !! "operator" = Some op ->
          exists e,
            SuiteCRM.get json_loads session_hasattr config name fields sort fs w
            = (Raise e, w)).
Proof.
  split; [|split; [|split; [|split]]].
  - intros op opname Hin url field v d Hop Hv.
    apply operators_table in Hin. simpl. unfold Query.getitem.
    now rewrite Hop, Hin, Hv.
  - intros op opname Hin loads hasattr cfg name fields sort earlier later before after
      field v d w Hop Hv Hearlier Hlater Hs Hm clause query.
    apply operators_table in Hin.
    assert (Hclause : Term.text (field, Query.Dict d) = inr clause).
    { unfold Term.text, Query.getitem. now rewrite Hop, Hin, Hv. }
    assert (Hq : Query.build name fields sort
                   (earlier ++ (field, Query.Dict d) :: later)%list = inr query).
    { apply build_texts; [now destruct before|].
      now apply texts_app. }
    split; [exact Hq|].
    rewrite (get_world loads hasattr cfg name fields sort _ query w Hq).
    apply (request_starts_with_call loads hasattr cfg _ "get" (JStr "") w Hs Hm).
  - intros op Hout url field d Hop.
    apply operators_unknown in Hout. simpl. unfold Query.getitem.
    now rewrite Hop, Hout.
  - intros op Hout loads hasattr cfg name fields sort earlier later before field d w
      Hop Hearlier.
    apply operators_unknown in Hout.
    unfold SuiteCRM.get, Query.build, bind.
    rewrite add_filters_texts.
    rewrite (texts_first_error earlier later (field, Query.Dict d) before (KeyError op));
      [reflexivity | exact Hearlier |].
    unfold Term.text, Query.getitem. now rewrite Hop, Hout.
  - intros op Hout loads hasattr cfg name fields sort fs field d w Hin Hop.
    apply operators_unknown in Hout.
    destruct (add_filters_fails fs (Query.base_url name fields) field d op Hin Hop Hout)
      as [e He].
    exists e. unfold SuiteCRM.get, Query.build, bind. now rewrite He.
Qed.

Lemma get_operator_mapping_witness :
  (exists tl,
      trace (snd (Sample.get "Contacts" None ""
                    [("name", Query.Lit "x");
                     ("date_start",
                      Query.Dict (<["operator" := ">="]> (<["value" := "2020"]> ∅)))]
                    (Sample.world0 [inr (Sample.resp 200 "page-a")] [])))
      = Call "get"
             "https://crm.example.com/Api/V8/module/Contacts?filter%5Bname%5D%5Beq%5D=xand&%5Bdate_start%5D%5BGTE%5D=2020"
             None :: tl)
  /\ Sample.get "Contacts" None ""
       [("name", Query.Lit "x");
        ("date_start", Query.Dict (<["operator" := "=="]> (<["value" := "2020"]> ∅)))]
       (Sample.world0 [] [])
     = (Raise (KeyError "=="), Sample.world0 [] []).
Proof.
  destruct get_operator_mapping as (_ & Hin & _ & Hout & _). split.
  - refine (proj2 (Hin ">=" "GTE" _ Sample.loads Sample.hasattr Sample.config
                     "Contacts" None "" [("name", Query.Lit "x")] []
                     ["[name][eq]=x"] [] "date_start" "2020"
                     (<["operator" := ">="]> (<["value" := "2020"]> ∅))
                     (Sample.world0 [inr (Sample.resp 200 "page-a")] [])
                     _ _ _ _ _ _)).
    + apply (bool_decide_unpack _). vm_compute. exact I.
    + reflexivity.
    + reflexivity.
    + reflexivity.
    + reflexivity.
    + exists "tok0". reflexivity.
    + reflexivity.
  - refine (Hout "==" _ Sample.loads Sample.hasattr Sample.config "Contacts" None ""
              [("name", Query.Lit "x")] [] ["[name][eq]=x"] "date_start"
              (<["operator" := "=="]> (<["value" := "2020"]> ∅))
              (Sample.world0 [] []) _ _).
    + apply (bool_decide_unpack _). vm_compute. exact I.
    + reflexivity.
    + reflexivity.
Defined.

(** A [dict] filter is read key by key: without [operator] the
    exception is [KeyError('operator')]; with an operator outside the table
    it is the [KeyError] of that operator, whether or not [value] is there;
    with a known operator and no [value] it is [KeyError('value')]. *)
Lemma add_filter_missing_keys (url field : string) (d : gmap string string) :
  (d !! "operator" = None ->
   Query.add_filter url (field, Query.Dict d) = inl (KeyError "operator"))
  /\ (forall op, d !! "operator" = Some op -> Query.operators !! op = None ->
        Query.add_filter url (field, Query.Dict d) = inl (KeyError op))
  /\ (forall op opname,
        d !! "operator" = Some op -> Query.operators !! op = Some opname ->
        d !! "value" = None ->
        Query.add_filter url (field, Query.Dict d) = inl (KeyError "value")).
Proof.
  unfold Query.add_filter, Query.getitem. repeat split.
  - now intros ->.
  - intros op -> H. now rewrite H.
  - intros op opname -> H Hv. now rewrite H, Hv.
Qed.

Lemma add_filter_missing_keys_witness :
  Query.add_filter "/module/Leads?filter" ("amount", Query.Dict (<["value" := "10"]> ∅))
  = inl (KeyError "operator")
  /\ Query.add_filter "/module/Leads?filter" ("amount", Query.Dict (<["operator" := "!="]> ∅))
     = inl (KeyError "!=")
  /\ Query.add_filter "/module/Leads?filter" ("amount", Query.Dict (<["operator" := "<"]> ∅))
     = inl (KeyError "value").
Proof.
  split; [|split].
  - apply (proj1 (add_filter_missing_keys "/module/Leads?filter" "amount"
                    (<["value" := "10"]> ∅))).
    vm_compute. reflexivity.
  - apply (proj1 (proj2 (add_filter_missing_keys "/module/Leads?filter" "amount"
                           (<["operator" := "!="]> ∅))) "!=");
      vm_compute; reflexivity.
  - apply (proj2 (proj2 (add_filter_missing_keys "/module/Leads?filter" "amount"
                           (<["operator" := "<"]> ∅))) "<" "LT");
      vm_compute; reflexivity.
Defined.

(** ** Bounds and invariants of computations *)

Section Bounded.

Context {A B : Type}.

Lemma bounded_weaken (c c' f f' : nat) (m : M A) :
  c <= c' -> f <= f' -> bounded c f m -> bounded c' f' m.
Proof.
  intros Hc Hf Hm w. destruct (Hm w) as (tl & Htl & H1 & H2).
  exists tl. repeat split; [exact Htl | lia | lia].
Qed.

Lemma bounded_still (m : M A) :
  (forall w, trace (snd (m w)) = trace w) -> bounded 0 0 m.
Proof.
  intros H w. exists []. rewrite H, app_nil_r. simpl. repeat split; lia.
Qed.

Lemma bounded_bind (c1 f1 c2 f2 : nat) (m : M A) (k : A -> M B) :
  bounded c1 f1 m -> (forall a, bounded c2 f2 (k a)) ->
  bounded (c1 + c2) (f1 + f2) (bind m k).
Proof.
  intros Hm Hk w. unfold bind.
  destruct (Hm w) as (tl & Htl & H1 & H2).
  destruct (m w) as [[a|e|] w1]; simpl in *.
  - destruct (Hk a w1) as (tl' & Htl' & H1' & H2').
    exists (tl ++ tl')%list. rewrite Htl', Htl, <- app_assoc, !List.filter_app, !length_app.
    repeat split; lia.
  - exists tl. repeat split; [exact Htl | lia | lia].
  - exists tl. repeat split; [exact Htl | lia | lia].
Qed.

Lemma bounded_try_except (c1 f1 c2 f2 : nat) (m : M A) (handler : exn -> option (M A)) :
  bounded c1 f1 m -> (forall e h, handler e = Some h -> bounded c2 f2 h) ->
  bounded (c1 + c2) (f1 + f2) (try_except m handler).
Proof.
  intros Hm Hh w. unfold try_except.
  destruct (Hm w) as (tl & Htl & H1 & H2).
  destruct (m w) as [[a|e|] w1]; simpl in *.
  - exists tl. repeat split; [exact Htl | lia | lia].
  - destruct (handler e) as [h|] eqn:He.
    + destruct (Hh e h He w1) as (tl' & Htl' & H1' & H2').
      exists (tl ++ tl')%list.
      rewrite Htl', Htl, <- app_assoc, !List.filter_app, !length_app.
      repeat split; lia.
    + exists tl. repeat split; [exact Htl | lia | lia].
  - exists tl. repeat split; [exact Htl | lia | lia].
Qed.

Lemma keeps_sync_still (m : M A) :
  (forall w, token_file (snd (m w)) = token_file w /\ session (snd (m w)) = session w) ->
  keeps_sync m.
Proof. intros H w Hw. unfold in_sync in *. destruct (H w) as [-> ->]. exact Hw. Qed.

Lemma keeps_sync_bind (m : M A) (k : A -> M B) :
  keeps_sync m -> (forall a, keeps_sync (k a)) -> keeps_sync (bind m k).
Proof.
  intros Hm Hk w Hw. unfold bind. specialize (Hm w Hw).
  destruct (m w) as [[a|e|] w1]; simpl in *; [now apply Hk | exact Hm | exact Hm].
Qed.

Lemma keeps_sync_try_except (m : M A) (handler : exn -> option (M A)) :
  keeps_sync m -> (forall e h, handler e = Some h -> keeps_sync h) ->
  keeps_sync (try_except m handler).
Proof.
  intros Hm Hh w Hw. unfold try_except. specialize (Hm w Hw).
  destruct (m w) as [[a|e|] w1]; simpl in *; try exact Hm.
  destruct (handler e) as [h|] eqn:He; [now apply (Hh e h He) | exact Hm].
Qed.

Lemma returns_in_sync_keeps (m : M A) : keeps_sync m -> returns_in_sync m.
Proof. intros Hm w Hw a _. now apply Hm. Qed.

Lemma returns_in_sync_bind (m : M A) (k : A -> M B) :
  returns_in_sync m -> (forall a, returns_in_sync (k a)) ->
  returns_in_sync (bind m k).
Proof.
  intros Hm Hk w Hw b. unfold bind. specialize (Hm w Hw).
  destruct (m w) as [[a|e|] w1]; simpl in *; try discriminate.
  apply Hk. now apply (Hm a).
Qed.

Lemma returns_in_sync_try_except (m : M A) (handler : exn -> option (M A)) :
  keeps_sync m -> (forall e h, handler e = Some h -> returns_in_sync h) ->
  returns_in_sync (try_except m handler).
Proof.
  intros Hm Hh w Hw a. unfold try_except. specialize (Hm w Hw).
  destruct (m w) as [[a'|e|] w1]; simpl in *; try discriminate.
  - intros _. exact Hm.
  - destruct (handler e) as [h|] eqn:He; [|discriminate].
    now apply (Hh e h He).
Qed.

End Bounded.

Lemma bounded_the_method (m u : string) (d : option body) :
  bounded 1 0 (the_method m u d).
Proof.
  intros w. unfold the_method. exists [Call m u d].
  destruct (net w) as [|[e|r] rest]; simpl; repeat split; lia.
Qed.

Lemma keeps_sync_the_method (m u : string) (d : option body) :
  keeps_sync (the_method m u d).
Proof.
  apply keeps_sync_still. intros w. unfold the_method.
  now destruct (net w) as [|[e|r] rest].
Qed.

Lemma bounded_refresh (config : PySuiteCRMConfig) :
  bounded 0 1 (SuiteCRM._refresh_token config).
Proof.
  intros w.
  unfold SuiteCRM._refresh_token, TokenStore.save, bind, gets, modify, try_except,
    fetch_token, open_w_plus, file_write, exit, raise.
  destruct (session w).
  - exists [FetchToken (SuiteCRM.tk_url config) (client_id config) (client_secret config)].
    destruct (idp w) as [|[e|tok] rest]; [| destruct e |]; simpl; repeat split; lia.
  - exists []. simpl. rewrite app_nil_r. repeat split; lia.
Qed.

(** A refresh that returns has put the new token in the session and in
    the file. *)
Lemma returns_in_sync_refresh (config : PySuiteCRMConfig) :
  returns_in_sync (SuiteCRM._refresh_token config).
Proof.
  intros w _ a. unfold in_sync.
  unfold SuiteCRM._refresh_token, TokenStore.save, bind, gets, modify, try_except,
    fetch_token, open_w_plus, file_write, exit, raise.
  destruct (session w) eqn:Hs; [|discriminate].
  destruct (idp w) as [|[e|tok] rest]; [discriminate | destruct e; discriminate |].
  reflexivity.
Qed.

(** ** More on [request], [_refresh_token] and [_login] *)

Section RequestOutcomes.

Variable json_loads : string -> exn + json.
Variable session_hasattr : string -> bool.
Variable config : PySuiteCRMConfig.

Local Abbreviation request := (SuiteCRM.request json_loads session_hasattr config).
Local Abbreviation refresh := (SuiteCRM._refresh_token config).
Local Abbreviation fetch_event :=
  (FetchToken (SuiteCRM.tk_url config) (client_id config) (client_secret config)).
Local Abbreviation first_call u m p :=
  (Call m (Quote.quote u) (SuiteCRM.data_arg p (Dumps (JObj [("data", p)])))).

(** What the caller sees when the identity provider answers a token
    request with the exception [e]. *)
Local Abbreviation refresh_failure e :=
  (match e with
   | InvalidClientError => SystemExit "401 (Unauthorized) - client id/secret"
   | CustomOAuth2Error => SystemExit "401 (Unauthorized) - client id"
   | _ => e
   end).

(** X6.  A response with any status other than 401 ends the call after
    that one transport call, with no refresh and the token untouched.  At
    status 400 the body is decoded: a body that is not UTF-8 raises the
    decoder's exception, and one that holds [Database failure.] raises
    [Exception] with the body.  Every other response, error statuses
    included, is handed to [json.loads]: its value is returned, and its
    exception, if it raises, reaches the caller. *)
Theorem request_other_status (u m : string) (p : json) (w : world) (r : response)
        (rest : list (exn + response)) :
  is_Some (session w) -> session_hasattr m = true ->
  net w = inr r :: rest -> status_code r <> 401%Z ->
  let w' := {| net := rest; idp := idp w; token_file := token_file w;
               session := session w; trace := trace w ++ [first_call u m p] |} in
  (status_code r = 400%Z -> Utf8.valid (content r) = false ->
   request u m p w = (Raise (OtherError "UnicodeDecodeError"), w'))
  /\ (status_code r = 400%Z -> Utf8.valid (content r) = true ->
      Py.contains "Database failure." (content r) = true ->
      request u m p w = (Raise (Exception (content r)), w'))
  /\ (status_code r <> 400%Z
      \/ (Utf8.valid (content r) = true
          /\ Py.contains "Database failure." (content r) = false) ->
      request u m p w
      = (match json_loads (content r) with
         | inr j => Ret (Some j)
         | inl e => Raise e
         end, w')).
Proof.
  intros Hs Hm Hn Hr w'.
  rewrite (request_plain json_loads session_hasattr config u m p w r rest Hs Hm Hn Hr).
  unfold SuiteCRM.respond, SuiteCRM.database_failure, bind.
  apply Z.eqb_neq in Hr. rewrite Hr.
  repeat split.
  - intros H400 Hv. now rewrite H400, Hv.
  - intros H400 Hv Hc. now rewrite H400, Hv, Hc.
  - intros [H|[Hv Hc]].
    + apply Z.eqb_neq in H. rewrite H. simpl.
      now destruct (json_loads (content r)).
    + rewrite Hv, Hc. destruct (status_code r =? 400)%Z; simpl;
        now destruct (json_loads (content r)).
Qed.

(** X7.  An exception of the transport other than [TokenExpiredError]
    reaches the caller as it is, after that one call and without any
    refresh. *)
Theorem request_transport_error (u m : string) (p : json) (w : world) (e : exn)
        (rest : list (exn + response)) :
  is_Some (session w) -> session_hasattr m = true ->
  net w = inl e :: rest -> e <> TokenExpiredError ->
  request u m p w
  = (Raise e,
     {| net := rest; idp := idp w; token_file := token_file w; session := session w;
        trace := trace w ++ [first_call u m p] |}).
Proof.
  intros Hs Hm Hn He.
  unfold SuiteCRM.request, SuiteCRM.request_fuel, bind, gets, try_except.
  rewrite bool_decide_eq_true_2 by exact Hs. rewrite Hm. simpl.
  rewrite send_eq. unfold the_method. rewrite Hn.
  destruct e; try reflexivity. congruence.
Qed.

Lemma refresh_fails (w : world) (e : exn) (rest : list (exn + string)) :
  is_Some (session w) -> idp w = inl e :: rest ->
  refresh w
  = (Raise (refresh_failure e),
     {| net := net w; idp := rest; token_file := token_file w; session := Some "{}";
        trace := trace w ++ [fetch_event] |}).
Proof.
  intros [s Hs] Hi.
  unfold SuiteCRM._refresh_token, TokenStore.save, bind, gets, modify, try_except,
    fetch_token, open_w_plus, file_write.
  rewrite Hs, Hi. destruct e; reflexivity.
Qed.

(** X8.  When the identity provider rejects a token request, the refresh
    stops with the exit message for an invalid client, or with the
    provider's exception for anything else.  The token file is not written,
    and the session is left with the empty token it took before asking. *)
Theorem refresh_rejected (w : world) (e : exn) (rest : list (exn + string)) :
  is_Some (session w) -> idp w = inl e :: rest ->
  refresh w
  = (Raise (refresh_failure e),
     {| net := net w; idp := rest; token_file := token_file w; session := Some "{}";
        trace := trace w ++ [fetch_event] |}).
Proof. apply refresh_fails. Qed.

(** X9.  A 401 followed by a rejected token request ends the call there:
    the call is not issued again, the old token stays in the file, and the
    session is left with an empty token. *)
Theorem request_revoked_refresh_rejected (u m : string) (p : json) (w : world)
        (r1 : response) (rest : list (exn + response))
        (e : exn) (rest' : list (exn + string)) :
  is_Some (session w) -> session_hasattr m = true ->
  net w = inr r1 :: rest -> status_code r1 = 401%Z ->
  idp w = inl e :: rest' ->
  request u m p w
  = (Raise (refresh_failure e),
     {| net := rest; idp := rest'; token_file := token_file w; session := Some "{}";
        trace := trace w ++ [first_call u m p; fetch_event] |}).
Proof.
  intros Hs Hm Hn Hr Hi.
  unfold SuiteCRM.request, SuiteCRM.request_fuel, bind, gets, try_except.
  rewrite bool_decide_eq_true_2 by exact Hs. rewrite Hm. simpl.
  rewrite send_eq. unfold the_method at 1. rewrite Hn, Hr. simpl.
  unfold bind. rewrite (refresh_fails _ e rest') by (simpl; auto).
  simpl. now rewrite <- app_assoc.
Qed.

Lemma bounded_revoked_loop (fuel : nat) (m u : string) (p : json) (data : response) :
  bounded 1 1 (SuiteCRM.revoked_loop config (S fuel) m u p 0 data).
Proof.
  simpl. destruct ((status_code data =? 401)%Z && (0 <? 1)%Z).
  - apply (bounded_bind 0 1 1 0); [apply bounded_refresh|]. intros _.
    apply (bounded_bind 1 0 0 0); [rewrite send_eq; apply bounded_the_method|].
    intros data'. change (0 + 1)%Z with 1%Z. rewrite revoked_loop_done.
    now apply bounded_still.
  - apply (bounded_weaken 0 1 0 1); [lia | lia | now apply bounded_still].
Qed.

Lemma bounded_respond (r : response) : bounded 0 0 (SuiteCRM.respond json_loads r).
Proof.
  apply bounded_still. intros w.
  now rewrite (respond_world json_loads).
Qed.

(** X10.  Whatever the server and the identity provider answer, one call
    of [request] makes at most three transport calls and at most two token
    requests. *)
Theorem request_bounded (u m : string) (p : json) : bounded 3 2 (request u m p).
Proof.
  unfold SuiteCRM.request, SuiteCRM.request_fuel.
  apply (bounded_bind 0 0 3 2); [now apply bounded_still|]. intros s.
  destruct (negb _).
  { apply (bounded_weaken 0 3 0 2); [lia | lia | now apply bounded_still]. }
  apply (bounded_bind 2 1 1 1).
  - apply (bounded_try_except 1 0 1 1); [rewrite send_eq; apply bounded_the_method|].
    intros e h He. destruct e; inversion He.
    apply (bounded_bind 0 1 1 0); [apply bounded_refresh|].
    intros _. rewrite send_eq. apply bounded_the_method.
  - intros data. apply (bounded_bind 1 1 0 0); [apply bounded_revoked_loop|].
    intros data'. apply bounded_respond.
Qed.

(** X11.  If the token file holds the token of the session before a call
    of [request], it does so whenever the call returns a result, with or
    without refreshes on the way. *)
Theorem request_returns_in_sync (u m : string) (p : json) :
  returns_in_sync (request u m p).
Proof.
  unfold SuiteCRM.request, SuiteCRM.request_fuel.
  apply returns_in_sync_bind;
    [now apply returns_in_sync_keeps, keeps_sync_still|]. intros s.
  destruct (negb _); [now apply returns_in_sync_keeps, keeps_sync_still|].
  apply returns_in_sync_bind.
  - apply returns_in_sync_try_except; [rewrite send_eq; apply keeps_sync_the_method|].
    intros e h He. destruct e; inversion He.
    apply returns_in_sync_bind; [apply returns_in_sync_refresh|].
    intros _. rewrite send_eq. apply returns_in_sync_keeps, keeps_sync_the_method.
  - intros data. apply returns_in_sync_bind.
    + simpl. destruct ((status_code data =? 401)%Z && (0 <? 1)%Z);
        [|now apply returns_in_sync_keeps, keeps_sync_still].
      apply returns_in_sync_bind; [apply returns_in_sync_refresh|]. intros _.
      apply returns_in_sync_bind;
        [rewrite send_eq; apply returns_in_sync_keeps, keeps_sync_the_method|].
      intros data'. destruct (_ && _); now apply returns_in_sync_keeps, keeps_sync_still.
    + intros data'. apply returns_in_sync_keeps, keeps_sync_still. intros w.
      now rewrite (respond_world json_loads).
Qed.

Lemma login_ok (w : world) (tok : string) (rest : list (exn + string)) :
  idp w = inr tok :: rest ->
  SuiteCRM._login config w
  = (Ret tt,
     {| net := net w; idp := rest; token_file := Some tok; session := Some tok;
        trace := trace w ++ [fetch_event] |}).
Proof.
  intros Hi. destruct (session w) as [s|] eqn:Hs.
  - unfold SuiteCRM._login, bind at 1, gets. rewrite Hs.
    now apply refresh_ok.
  - now apply login_ignores_saved_token.
Qed.

(** X12.  [_login] asks the identity provider for a token exactly once,
    whether or not the object already has a session and whatever the token
    file holds; the new token ends up in the session and in the file. *)
Theorem login_fetches_once (w : world) (tok : string) (rest : list (exn + string)) :
  idp w = inr tok :: rest ->
  SuiteCRM._login config w
  = (Ret tt,
     {| net := net w; idp := rest; token_file := Some tok; session := Some tok;
        trace := trace w ++ [fetch_event] |}).
Proof. apply login_ok. Qed.

(** X13.  When the first login of a new client is rejected, the token file
    is left empty: a token saved by an earlier run is lost even though no
    new one was obtained. *)
Theorem login_rejected_empties_file (w : world) (e : exn) (rest : list (exn + string)) :
  session w = None -> idp w = inl e :: rest ->
  SuiteCRM._login config w
  = (Raise (refresh_failure e),
     {| net := net w; idp := rest; token_file := Some ""; session := Some "{}";
        trace := trace w ++ [fetch_event] |}).
Proof.
  intros Hs Hi.
  unfold SuiteCRM._login, TokenStore.load, bind at 1, gets. rewrite Hs.
  unfold bind, modify, open_w_plus, file_read. simpl.
  rewrite (refresh_fails _ e rest) by (simpl; eauto). reflexivity.
Qed.

End RequestOutcomes.

(** ** The methods of [Module] *)

Lemma ceil_div_negative_page (n p : Z) :
  (0 <= n)%Z -> (p < 0)%Z -> (Py.ceil_div n p <= 0)%Z.
Proof.
  intros Hn Hp. unfold Py.ceil_div.
  pose proof (Z.div_mod (- n) p ltac:(lia)) as Hdm.
  pose proof (Z.mod_neg_bound (- n) p Hp) as Hb.
  nia.
Qed.

Lemma range_empty (lo hi : Z) : (hi <= lo)%Z -> Py.range lo hi = [].
Proof. intros H. unfold Py.range. now replace (Z.to_nat (hi - lo)) with 0 by lia. Qed.

Section Methods.

Variable json_loads : string -> exn + json.
Variable session_hasattr : string -> bool.
Variable config : PySuiteCRMConfig.
Variable ceil_beyond : Z -> Z -> exn + Z.
Variable str_lower : string -> string.
Variable str_capitalize : string -> string.

Local Abbreviation get := (SuiteCRM.get json_loads session_hasattr config).
Local Abbreviation get_all :=
  (SuiteCRM.get_all json_loads session_hasattr config ceil_beyond).
Local Abbreviation fields := (CrmModule.fields json_loads session_hasattr config).
Local Abbreviation probe_url name :=
  (Quote.quote (url config +:+ "/module/" +:+ name +:+ "?page[number]=1&page[size]=1")).
Local Abbreviation after_call w rest u :=
  {| net := rest; idp := idp w; token_file := token_file w; session := session w;
     trace := trace w ++ [Call "get" u None] |}.

(** X14.  With well-formed filters, [Module.get] makes one call without a
    body to the encoded base URL followed by the query, and returns the
    [data] member of the parsed answer; an answer without that member, as
    an error document is, raises [KeyError('data')]. *)
Theorem get_data_or_key_error (name : string) (flds : option (list string))
        (sort : string) (fs : Query.filters) (q : string) (w : world)
        (r : response) (kv : list (string * json)) (rest : list (exn + response)) :
  is_Some (session w) -> session_hasattr "get" = true ->
  Query.build name flds sort fs = inr q ->
  net w = inr r :: rest -> SuiteCRM.answers json_loads r (JObj kv) ->
  get name flds sort fs w
  = (match Json.assoc "data" kv with
     | Some d => Ret d
     | None => Raise (KeyError "data")
     end,
     after_call w rest (Quote.quote (url config +:+ q))).
Proof.
  intros Hs Hm Hq Hn Ha. unfold SuiteCRM.get. rewrite Hq.
  unfold bind, lift at 1, ret at 1.
  rewrite (request_answers json_loads session_hasattr config _ _ _ w r _ rest Hs Hm Hn Ha).
  simpl. now destruct (Json.assoc "data" kv).
Qed.

(** X15.  With a page size of 0, [get_all] raises [ZeroDivisionError] once
    the probe has been answered with a page total: the probe is the only
    call made. *)
Theorem get_all_zero_page_size (name : string) (w : world) (probe : response)
        (j : json) (mkv : list (string * json)) (total : json) (N : Z)
        (rest : list (exn + response)) :
  is_Some (session w) -> session_hasattr "get" = true ->
  net w = inr probe :: rest -> SuiteCRM.answers json_loads probe j ->
  Json.getitem (Some j) "meta" = inr (JObj mkv) ->
  Json.assoc "total-pages" mkv = Some total -> Json.number total = inr N ->
  get_all name 0 w = (Raise ZeroDivisionError, after_call w rest (probe_url name)).
Proof.
  intros Hs Hm Hn Ha Hmeta Htotal HN.
  unfold SuiteCRM.get_all, bind.
  rewrite (request_answers json_loads session_hasattr config _ _ _ w probe j rest Hs Hm Hn Ha).
  rewrite Hmeta. simpl. rewrite Htotal.
  rewrite bool_decide_eq_true_2 by eauto. simpl. now rewrite HN.
Qed.

(** X16.  With a negative page size and a page total that is not
    negative, both below [2^53] in absolute value, [get_all] asks for no
    page and returns the empty list. *)
Theorem get_all_negative_page_size (name : string) (P : Z) (w : world)
        (probe : response) (j : json) (mkv : list (string * json)) (total : json)
        (N : Z) (rest : list (exn + response)) :
  is_Some (session w) -> session_hasattr "get" = true ->
  net w = inr probe :: rest -> SuiteCRM.answers json_loads probe j ->
  Json.getitem (Some j) "meta" = inr (JObj mkv) ->
  Json.assoc "total-pages" mkv = Some total -> Json.number total = inr N ->
  (0 <= N < 2 ^ 53)%Z -> (- 2 ^ 53 < P < 0)%Z ->
  get_all name P w = (Ret [], after_call w rest (probe_url name)).
Proof.
  intros Hs Hm Hn Ha Hmeta Htotal HN HN0 HP.
  unfold SuiteCRM.get_all, bind.
  rewrite (request_answers json_loads session_hasattr config _ _ _ w probe j rest Hs Hm Hn Ha).
  rewrite Hmeta. simpl. rewrite Htotal.
  rewrite bool_decide_eq_true_2 by eauto. simpl. rewrite HN. simpl.
  destruct (Z.eqb_spec P 0) as [->|_]; [lia|].
  unfold SuiteCRM.ceil_truediv, Py.exact.
  replace (Z.abs N <? 2 ^ 53)%Z with true by (symmetry; apply Z.ltb_lt; lia).
  replace (Z.abs P <? 2 ^ 53)%Z with true by (symmetry; apply Z.ltb_lt; lia).
  simpl.
  pose proof (ceil_div_negative_page N P ltac:(lia) ltac:(lia)).
  now rewrite range_empty by lia.
Qed.

(** X17.  When the answer to the probe has no [meta] member, [get_all]
    raises [KeyError('meta')]; it does not fall back to the empty list. *)
Theorem get_all_missing_meta (name : string) (P : Z) (w : world) (probe : response)
        (kv : list (string * json)) (rest : list (exn + response)) :
  is_Some (session w) -> session_hasattr "get" = true ->
  net w = inr probe :: rest -> SuiteCRM.answers json_loads probe (JObj kv) ->
  Json.assoc "meta" kv = None ->
  get_all name P w = (Raise (KeyError "meta"), after_call w rest (probe_url name)).
Proof.
  intros Hs Hm Hn Ha Hmeta.
  unfold SuiteCRM.get_all, bind.
  rewrite (request_answers json_loads session_hasattr config _ _ _ w probe _ rest Hs Hm Hn Ha).
  simpl. now rewrite Hmeta.
Qed.

(** X18.  On a module without records, where [data] is the empty list,
    [fields] raises [IndexError] after its one call. *)
Theorem fields_no_record (name : string) (w : world) (r : response) (j : json)
        (rest : list (exn + response)) :
  is_Some (session w) -> session_hasattr "get" = true ->
  net w = inr r :: rest -> SuiteCRM.answers json_loads r j ->
  Json.getitem (Some j) "data" = inr (JArr []) ->
  fields name w = (Raise (OtherError "IndexError"), after_call w rest (probe_url name)).
Proof.
  intros Hs Hm Hn Ha Hd. unfold CrmModule.fields, bind.
  rewrite (request_answers json_loads session_hasattr config _ _ _ w r j rest Hs Hm Hn Ha).
  now rewrite Hd.
Qed.

(** X19.  [fields] returns the attribute names of the first record of the
    answer, in the order of the document; the other records are not
    looked at. *)
Theorem fields_first_record (name : string) (w : world) (r : response) (j record : json)
        (others : list json) (akv : list (string * json)) (rest : list (exn + response)) :
  is_Some (session w) -> session_hasattr "get" = true ->
  net w = inr r :: rest -> SuiteCRM.answers json_loads r j ->
  Json.getitem (Some j) "data" = inr (JArr (record :: others)) ->
  Json.getitem (Some record) "attributes" = inr (JObj akv) ->
  fields name w = (Ret (map fst akv), after_call w rest (probe_url name)).
Proof.
  intros Hs Hm Hn Ha Hd Hattr. unfold CrmModule.fields, bind.
  rewrite (request_answers json_loads session_hasattr config _ _ _ w r j rest Hs Hm Hn Ha).
  rewrite Hd. unfold lift at 1, ret at 1. cbn [JsonOps.index0 lift ret].
  now rewrite Hattr.
Qed.

(** X20.  [delete_relationship] joins its path from [module], not
    [/module]: the URL it calls is the encoded base URL immediately followed
    by [module/...], with no separator between the two. *)
Theorem delete_relationship_no_separator
        (name record_id related bean : string) (w : world) :
  is_Some (session w) -> session_hasattr "delete" = true ->
  exists tl,
    trace (snd (CrmModule.delete_relationship json_loads session_hasattr config
                  str_lower name record_id related bean w))
    = (trace w ++
       Call "delete"
            (Quote.quote (url config) +:+ "module/"
             +:+ Quote.quote (name +:+ "/" +:+ record_id +:+ "/relationships/"
                              +:+ str_lower related +:+ "/" +:+ bean))
            None :: tl)%list.
Proof.
  intros Hs Hm. unfold CrmModule.delete_relationship.
  destruct (request_starts_with_call json_loads session_hasattr config
              (url config +:+ CrmModule.delete_relationship_path str_lower name record_id
                                related bean)
              "delete" (JStr "") w Hs Hm) as [tl Htl].
  exists tl. rewrite Htl. f_equal. f_equal.
  unfold CrmModule.delete_relationship_path. cbn [Py.join].
  rewrite !quote_append. reflexivity.
Qed.

End Methods.

(** ** The attributes of the client *)

Lemma load_custom_module_preserves (self self' : gmap string Registry.attribute)
      (_module : gmap string string) :
  Registry.load_custom_module self _module = inr self' ->
  forall n v, self !! n = Some v -> self' !! n = Some v.
Proof.
  unfold Registry.load_custom_module. intros H n v Hn.
  destruct (Query.getitem _module "client_name") as [e|client]; [discriminate|].
  destruct (self !! client) eqn:Hc.
  - now injection H as <-.
  - destruct (Query.getitem _module "crm_name") as [e|crm]; [discriminate|].
    injection H as <-. rewrite lookup_insert_ne; [exact Hn | congruence].
Qed.

Lemma load_each_preserves (custom_modules : list (gmap string string)) :
  forall self self' : gmap string Registry.attribute,
    Registry.load_each self custom_modules = inr self' ->
    forall n v, self !! n = Some v -> self' !! n = Some v.
Proof.
  induction custom_modules as [|m l IH]; intros self self' H n v Hn; simpl in H.
  - now injection H as <-.
  - destruct (Registry.load_custom_module self m) as [e|self1] eqn:Hm; [discriminate|].
    eapply IH; [exact H|]. eapply load_custom_module_preserves; eauto.
Qed.

Lemma load_custom_modules_preserves (self self' : gmap string Registry.attribute)
        (custom_modules : option (list (gmap string string))) :
  Registry._load_custom_modules self custom_modules = inr self' ->
  forall n v, self !! n = Some v -> self' !! n = Some v.
Proof.
  unfold Registry._load_custom_modules. intros H n v Hn.
  destruct custom_modules as [[|m l]|]; try (injection H as <-; exact Hn).
  eapply load_each_preserves; eauto.
Qed.

(** X21.  Loading the custom modules never replaces an attribute the
    object already has: a declaration whose client name is taken, by a
    method, a built-in module or an earlier declaration, is skipped. *)
Theorem custom_modules_never_overwrite (self self' : gmap string Registry.attribute)
        (custom_modules : option (list (gmap string string))) :
  Registry._load_custom_modules self custom_modules = inr self' ->
  forall n v, self !! n = Some v -> self' !! n = Some v.
Proof. apply load_custom_modules_preserves. Qed.

Lemma assign_modules_keeps (l : list string) :
  forall (self : gmap string Registry.attribute) (n : string),
    self !! n = Some (Registry.ModuleObj n) ->
    foldl (fun s name => <[name := Registry.ModuleObj name]> s) self l !! n
    = Some (Registry.ModuleObj n).
Proof.
  induction l as [|x l IH]; intros self n Hn; simpl; [exact Hn|].
  apply IH. destruct (decide (x = n)) as [->|Hne].
  - apply lookup_insert_eq.
  - now rewrite lookup_insert_ne.
Qed.

Lemma assign_modules_sets (l : list string) :
  forall (self : gmap string Registry.attribute) (n : string),
    n ∈ l ->
    foldl (fun s name => <[name := Registry.ModuleObj name]> s) self l !! n
    = Some (Registry.ModuleObj n).
Proof.
  induction l as [|x l IH]; intros self n Hin; simpl.
  - now apply elem_of_nil in Hin.
  - apply elem_of_cons in Hin as [->|Hin].
    + apply assign_modules_keeps, lookup_insert_eq.
    + now apply IH.
Qed.

Lemma modules_assign_builtin (self self' : gmap string Registry.attribute)
        (custom_modules : option (list (gmap string string))) (n : string) :
  Registry._modules self custom_modules = inr self' ->
  n ∈ Registry.builtin_modules ->
  self' !! n = Some (Registry.ModuleObj n).
Proof.
  unfold Registry._modules. intros H Hin.
  eapply load_custom_modules_preserves; [exact H|].
  now apply assign_modules_sets.
Qed.

(** X22.  After [_modules], each of the 23 built-in names holds the module
    object of the CRM module of the same name, whatever the custom modules
    of the configuration declare: a custom module cannot take the place of
    a built-in one. *)
Theorem builtin_modules_present (self self' : gmap string Registry.attribute)
        (custom_modules : option (list (gmap string string))) (n : string) :
  Registry._modules self custom_modules = inr self' ->
  n ∈ Registry.builtin_modules ->
  self' !! n = Some (Registry.ModuleObj n).
Proof. apply modules_assign_builtin. Qed.

Lemma load_each_app (l1 l2 : list (gmap string string)) :
  forall self : gmap string Registry.attribute,
    Registry.load_each self (l1 ++ l2)%list
    = match Registry.load_each self l1 with
      | inl e => inl e
      | inr self1 => Registry.load_each self1 l2
      end.
Proof.
  induction l1 as [|m l1 IH]; intros self; simpl; [reflexivity|].
  destruct (Registry.load_custom_module self m); [reflexivity | apply IH].
Qed.

Lemma load_each_leaves_free (l : list (gmap string string)) (n : string) :
  (forall m, m ∈ l -> m !! "client_name" <> Some n) ->
  forall self self' : gmap string Registry.attribute,
    Registry.load_each self l = inr self' -> self !! n = None -> self' !! n = None.
Proof.
  induction l as [|m l IH]; intros Hl self self' H Hn; simpl in H.
  - now injection H as <-.
  - destruct (Registry.load_custom_module self m) as [e|self1] eqn:Hm; [discriminate|].
    apply (IH (fun m' Hm' => Hl m' (list_elem_of_further _ _ _ Hm')) self1 self' H).
    unfold Registry.load_custom_module, Query.getitem in Hm.
    destruct (m !! "client_name") as [client|] eqn:Hc; [|discriminate].
    destruct (self !! client); [now injection Hm as <-|].
    destruct (m !! "crm_name"); [|discriminate]. injection Hm as <-.
    rewrite lookup_insert_ne; [exact Hn|].
    intros ->. apply (Hl m (list_elem_of_here _ _)). exact Hc.
Qed.

(** X23.  Of several declarations with one client name the first one
    counts: if the name was free, the attribute of that name holds the CRM
    module of the first declaration carrying it. *)
Theorem first_declaration_wins (self self' : gmap string Registry.attribute)
        (earlier later : list (gmap string string)) (_module : gmap string string)
        (n crm : string) :
  Registry._load_custom_modules self (Some (earlier ++ _module :: later)%list) = inr self' ->
  _module !! "client_name" = Some n -> _module !! "crm_name" = Some crm ->
  self !! n = None ->
  (forall m, m ∈ earlier -> m !! "client_name" <> Some n) ->
  self' !! n = Some (Registry.ModuleObj crm).
Proof.
  intros H Hname Hcrm Hfree Hearlier.
  assert (H' : Registry.load_each self (earlier ++ _module :: later)%list = inr self').
  { destruct earlier; exact H. }
  clear H. rewrite load_each_app in H'.
  destruct (Registry.load_each self earlier) as [e|self1] eqn:H1; [discriminate|].
  pose proof (load_each_leaves_free earlier n Hearlier self self1 H1 Hfree) as Hn1.
  simpl in H'. unfold Registry.load_custom_module, Query.getitem in H'.
  rewrite Hname, Hn1, Hcrm in H'.
  eapply load_each_preserves; [exact H'|]. apply lookup_insert_eq.
Qed.

Section Init.

Variable new_config : string -> string -> string -> exn + PySuiteCRMConfig.
Variable config_truthy : PySuiteCRMConfig -> bool.
Variable custom_modules_of : PySuiteCRMConfig -> option (list (gmap string string)).
Variable base_attributes : gmap string Registry.attribute.

Local Abbreviation init :=
  (Registry.__init__ new_config config_truthy custom_modules_of base_attributes).

(** X24.  Constructing a client with no usable configuration object and
    with a credential missing or empty stops with [AttributeError], raised
    by the test [if not self.config] on an attribute that was never set: the
    configuration exception of the next line is not raised, and nothing has
    been done yet. *)
Theorem init_without_credentials (client_id client_secret url : option string)
        (config : option PySuiteCRMConfig) (w : world) :
  from_option config_truthy false config = false ->
  Registry.given client_id && Registry.given url && Registry.given client_secret = false ->
  init client_id client_secret url config w = (Raise (OtherError "AttributeError"), w).
Proof.
  intros Hc Hg. unfold Registry.__init__, Registry.choose_config, bind.
  destruct config as [c|]; simpl in Hc; [rewrite Hc|]; now rewrite Hg.
Qed.

(** X25.  With a configuration object, the constructor ignores the three
    credential arguments, obtains one token, stores it in the session and
    the file, and returns with every built-in module in place. *)
Theorem init_with_config (id secret base : option string)
        (c : PySuiteCRMConfig) (w : world) (tok : string) (rest : list (exn + string))
        (attrs : gmap string Registry.attribute) :
  config_truthy c = true -> idp w = inr tok :: rest ->
  Registry._modules base_attributes (custom_modules_of c) = inr attrs ->
  init id secret base (Some c) w
  = (Ret (c, attrs),
     {| net := net w; idp := rest; token_file := Some tok; session := Some tok;
        trace := trace w ++ [FetchToken (SuiteCRM.tk_url c) (client_id c)
                                        (client_secret c)] |})
  /\ forall n, n ∈ Registry.builtin_modules -> attrs !! n = Some (Registry.ModuleObj n).
Proof.
  intros Hc Hi Hm. split.
  - unfold Registry.__init__, Registry.choose_config, bind. rewrite Hc. simpl.
    rewrite Hc. simpl. rewrite (login_ok c w tok rest Hi). now rewrite Hm.
  - intros n Hn. eapply modules_assign_builtin; eauto.
Qed.

End Init.

(** ** The further properties on the two deployments *)

Lemma request_other_status_witness :
  Demo.request "https://crm.example.com/Api/V8/module/Leads/9" "delete" (JStr "")
    (Sample.world0 [inr (Sample.resp 404 "error")] [])
  = (Ret (Some (JObj [("errors", JObj [("status", JNum 404)])])),
     {| net := []; idp := []; token_file := Some "tok0"; session := Some "tok0";
        trace := [Call "delete" "https://crm.example.com/Api/V8/module/Leads/9" None] |})
  /\ Demo.request "https://crm.example.com/Api/V8/module/Leads" "get" (JStr "")
       (Sample.world0 [inr (Sample.resp 400 "Database failure. Please refer to logs")] [])
     = (Raise (Exception "Database failure. Please refer to logs"),
        {| net := []; idp := []; token_file := Some "tok0"; session := Some "tok0";
           trace := [Call "get" "https://crm.example.com/Api/V8/module/Leads" None] |})
  /\ Demo.request "https://crm.example.com/Api/V8/module/Leads" "get" (JStr "")
       (Sample.world0 [inr (Sample.resp 400 (String (ascii_of_nat 255) ""))] [])
     = (Raise (OtherError "UnicodeDecodeError"),
        {| net := []; idp := []; token_file := Some "tok0"; session := Some "tok0";
           trace := [Call "get" "https://crm.example.com/Api/V8/module/Leads" None] |}).
Proof.
  split; [|split].
  - refine (proj2 (proj2 (request_other_status Demo.loads Sample.hasattr Sample.config
              "https://crm.example.com/Api/V8/module/Leads/9" "delete" (JStr "")
              (Sample.world0 [inr (Sample.resp 404 "error")] [])
              (Sample.resp 404 "error") [] _ _ _ _)) _).
    + exists "tok0". reflexivity.
    + vm_compute. reflexivity.
    + reflexivity.
    + simpl. lia.
    + left. simpl. lia.
  - refine (proj1 (proj2 (request_other_status Demo.loads Sample.hasattr Sample.config
              "https://crm.example.com/Api/V8/module/Leads" "get" (JStr "")
              (Sample.world0 [inr (Sample.resp 400 "Database failure. Please refer to logs")] [])
              (Sample.resp 400 "Database failure. Please refer to logs") [] _ _ _ _)) _ _ _).
    + exists "tok0". reflexivity.
    + vm_compute. reflexivity.
    + reflexivity.
    + simpl. lia.
    + reflexivity.
    + reflexivity.
    + reflexivity.
  - refine (proj1 (request_other_status Demo.loads Sample.hasattr Sample.config
              "https://crm.example.com/Api/V8/module/Leads" "get" (JStr "")
              (Sample.world0 [inr (Sample.resp 400 (String (ascii_of_nat 255) ""))] [])
              (Sample.resp 400 (String (ascii_of_nat 255) "")) [] _ _ _ _) _ _).
    + exists "tok0". reflexivity.
    + vm_compute. reflexivity.
    + reflexivity.
    + simpl. lia.
    + reflexivity.
    + reflexivity.
Defined.

Lemma request_transport_error_witness :
  Demo.request "https://crm.example.com/Api/V8/module" "get" (JStr "")
    (Sample.world0 [inl (OtherError "Timeout"); inr (Sample.resp 200 "records")] [inr "t1"])
  = (Raise (OtherError "Timeout"),
     {| net := [inr (Sample.resp 200 "records")]; idp := [inr "t1"];
        token_file := Some "tok0"; session := Some "tok0";
        trace := [Call "get" "https://crm.example.com/Api/V8/module" None] |}).
Proof.
  refine (request_transport_error Demo.loads Sample.hasattr Sample.config
            "https://crm.example.com/Api/V8/module" "get" (JStr "")
            (Sample.world0 [inl (OtherError "Timeout"); inr (Sample.resp 200 "records")]
                           [inr "t1"])
            (OtherError "Timeout") [inr (Sample.resp 200 "records")] _ _ _ _).
  - exists "tok0". reflexivity.
  - vm_compute. reflexivity.
  - reflexivity.
  - discriminate.
Defined.

Lemma refresh_rejected_witness :
  SuiteCRM._refresh_token Sample.config (Sample.world0 [] [inl InvalidClientError])
  = (Raise (SystemExit "401 (Unauthorized) - client id/secret"),
     {| net := []; idp := []; token_file := Some "tok0"; session := Some "{}";
        trace := [FetchToken "https://crm.example.com/Api/access_token" "id" "secret"] |}).
Proof.
  refine (refresh_rejected Sample.config (Sample.world0 [] [inl InvalidClientError])
            InvalidClientError [] _ _).
  - exists "tok0". reflexivity.
  - reflexivity.
Defined.

Lemma request_revoked_refresh_rejected_witness :
  Demo.request "https://crm.example.com/Api/V8/module" "get" (JStr "")
    (Sample.world0 [inr (Sample.resp 401 "denied"); inr (Sample.resp 200 "records")]
                   [inl CustomOAuth2Error])
  = (Raise (SystemExit "401 (Unauthorized) - client id"),
     {| net := [inr (Sample.resp 200 "records")]; idp := [];
        token_file := Some "tok0"; session := Some "{}";
        trace := [Call "get" "https://crm.example.com/Api/V8/module" None;
                  FetchToken "https://crm.example.com/Api/access_token" "id" "secret"] |}).
Proof.
  refine (request_revoked_refresh_rejected Demo.loads Sample.hasattr Sample.config
            "https://crm.example.com/Api/V8/module" "get" (JStr "")
            (Sample.world0 [inr (Sample.resp 401 "denied"); inr (Sample.resp 200 "records")]
                           [inl CustomOAuth2Error])
            (Sample.resp 401 "denied") [inr (Sample.resp 200 "records")]
            CustomOAuth2Error [] _ _ _ _ _).
  - exists "tok0". reflexivity.
  - vm_compute. reflexivity.
  - reflexivity.
  - reflexivity.
  - reflexivity.
Defined.

Lemma request_returns_in_sync_witness :
  in_sync (snd (Demo.request "https://crm.example.com/Api/V8/module" "get" (JStr "")
                  (Sample.world0 [inl TokenExpiredError; inr (Sample.resp 401 "denied");
                                  inr (Sample.resp 200 "records")]
                                 [inr "t1"; inr "t2"]))).
Proof.
  refine (request_returns_in_sync Demo.loads Sample.hasattr Sample.config
            "https://crm.example.com/Api/V8/module" "get" (JStr "")
            (Sample.world0 [inl TokenExpiredError; inr (Sample.resp 401 "denied");
                            inr (Sample.resp 200 "records")] [inr "t1"; inr "t2"])
            _ _ _).
  - reflexivity.
  - reflexivity.
Defined.

Lemma login_fetches_once_witness :
  SuiteCRM._login Sample.config (Demo.fresh [inr "t1"])
  = (Ret tt,
     {| net := []; idp := []; token_file := Some "t1"; session := Some "t1";
        trace := [FetchToken "https://crm.example.com/Api/access_token" "id" "secret"] |})
  /\ SuiteCRM._login Sample.config (Sample.world0 [] [inr "t1"])
     = (Ret tt,
        {| net := []; idp := []; token_file := Some "t1"; session := Some "t1";
           trace := [FetchToken "https://crm.example.com/Api/access_token" "id" "secret"] |}).
Proof.
  split.
  - apply (login_fetches_once Sample.config (Demo.fresh [inr "t1"]) "t1" []). reflexivity.
  - apply (login_fetches_once Sample.config (Sample.world0 [] [inr "t1"]) "t1" []).
    reflexivity.
Defined.

Lemma login_rejected_empties_file_witness :
  SuiteCRM._login Sample.config (Demo.fresh [inl InvalidClientError])
  = (Raise (SystemExit "401 (Unauthorized) - client id/secret"),
     {| net := []; idp := []; token_file := Some ""; session := Some "{}";
        trace := [FetchToken "https://crm.example.com/Api/access_token" "id" "secret"] |}).
Proof.
  refine (login_rejected_empties_file Sample.config (Demo.fresh [inl InvalidClientError])
            InvalidClientError [] _ _); reflexivity.
Defined.

Lemma get_data_or_key_error_witness :
  Demo.get "Leads" (Some ["name"]) "city" [("status", Query.Lit "New")]
    (Sample.world0 [inr (Sample.resp 404 "error")] [])
  = (Raise (KeyError "data"),
     {| net := []; idp := []; token_file := Some "tok0"; session := Some "tok0";
        trace := [Call "get"
                    "https://crm.example.com/Api/V8/module/Leads?fields%5BLeads%5D=name&filter%5Bstatus%5D%5Beq%5D=New&sort=-city"
                    None] |}).
Proof.
  refine (get_data_or_key_error Demo.loads Sample.hasattr Sample.config
            "Leads" (Some ["name"]) "city" [("status", Query.Lit "New")]
            "/module/Leads?fields[Leads]=name&filter[status][eq]=New&sort=-city"
            (Sample.world0 [inr (Sample.resp 404 "error")] [])
            (Sample.resp 404 "error") [("errors", JObj [("status", JNum 404)])] []
            _ _ _ _ _).
  - exists "tok0". reflexivity.
  - vm_compute. reflexivity.
  - vm_compute. reflexivity.
  - reflexivity.
  - split; [simpl; lia | split; reflexivity].
Defined.

Lemma get_all_zero_page_size_witness :
  Demo.get_all "Leads" 0 (Sample.world0 [inr (Sample.resp 200 "none")] [])
  = (Raise ZeroDivisionError,
     {| net := []; idp := []; token_file := Some "tok0"; session := Some "tok0";
        trace := [Call "get"
                    "https://crm.example.com/Api/V8/module/Leads?page%5Bnumber%5D=1&page%5Bsize%5D=1"
                    None] |}).
Proof.
  refine (get_all_zero_page_size Demo.loads Sample.hasattr Sample.config Sample.beyond
            "Leads"
            (Sample.world0 [inr (Sample.resp 200 "none")] [])
            (Sample.resp 200 "none")
            (JObj [("data", JArr []); ("meta", JObj [("total-pages", JNum 7)])])
            [("total-pages", JNum 7)] (JNum 7) 7 [] _ _ _ _ _ _ _).
  - exists "tok0". reflexivity.
  - vm_compute. reflexivity.
  - reflexivity.
  - split; [simpl; lia | split; reflexivity].
  - reflexivity.
  - reflexivity.
  - reflexivity.
Defined.

Lemma get_all_negative_page_size_witness :
  Demo.get_all "Leads" (-3) (Sample.world0 [inr (Sample.resp 200 "none")] [])
  = (Ret [],
     {| net := []; idp := []; token_file := Some "tok0"; session := Some "tok0";
        trace := [Call "get"
                    "https://crm.example.com/Api/V8/module/Leads?page%5Bnumber%5D=1&page%5Bsize%5D=1"
                    None] |}).
Proof.
  refine (get_all_negative_page_size Demo.loads Sample.hasattr Sample.config
            Sample.beyond "Leads" (-3)
            (Sample.world0 [inr (Sample.resp 200 "none")] [])
            (Sample.resp 200 "none")
            (JObj [("data", JArr []); ("meta", JObj [("total-pages", JNum 7)])])
            [("total-pages", JNum 7)] (JNum 7) 7 [] _ _ _ _ _ _ _ _ _).
  - exists "tok0". reflexivity.
  - vm_compute. reflexivity.
  - reflexivity.
  - split; [simpl; lia | split; reflexivity].
  - reflexivity.
  - reflexivity.
  - reflexivity.
  - lia.
  - lia.
Defined.

Lemma get_all_missing_meta_witness :
  Demo.get_all "Leads" 100 (Sample.world0 [inr (Sample.resp 404 "error")] [])
  = (Raise (KeyError "meta"),
     {| net := []; idp := []; token_file := Some "tok0"; session := Some "tok0";
        trace := [Call "get"
                    "https://crm.example.com/Api/V8/module/Leads?page%5Bnumber%5D=1&page%5Bsize%5D=1"
                    None] |}).
Proof.
  refine (get_all_missing_meta Demo.loads Sample.hasattr Sample.config Sample.beyond
            "Leads" 100
            (Sample.world0 [inr (Sample.resp 404 "error")] [])
            (Sample.resp 404 "error") [("errors", JObj [("status", JNum 404)])] []
            _ _ _ _ _).
  - exists "tok0". reflexivity.
  - vm_compute. reflexivity.
  - reflexivity.
  - split; [simpl; lia | split; reflexivity].
  - reflexivity.
Defined.

Lemma fields_no_record_witness :
  Demo.fields "Leads" (Sample.world0 [inr (Sample.resp 200 "none")] [])
  = (Raise (OtherError "IndexError"),
     {| net := []; idp := []; token_file := Some "tok0"; session := Some "tok0";
        trace := [Call "get"
                    "https://crm.example.com/Api/V8/module/Leads?page%5Bnumber%5D=1&page%5Bsize%5D=1"
                    None] |}).
Proof.
  refine (fields_no_record Demo.loads Sample.hasattr Sample.config "Leads"
            (Sample.world0 [inr (Sample.resp 200 "none")] [])
            (Sample.resp 200 "none")
            (JObj [("data", JArr []); ("meta", JObj [("total-pages", JNum 7)])])
            [] _ _ _ _ _).
  - exists "tok0". reflexivity.
  - vm_compute. reflexivity.
  - reflexivity.
  - split; [simpl; lia | split; reflexivity].
  - reflexivity.
Defined.

Lemma fields_first_record_witness :
  Demo.fields "Leads" (Sample.world0 [inr (Sample.resp 200 "records")] [])
  = (Ret ["name"; "city"],
     {| net := []; idp := []; token_file := Some "tok0"; session := Some "tok0";
        trace := [Call "get"
                    "https://crm.example.com/Api/V8/module/Leads?page%5Bnumber%5D=1&page%5Bsize%5D=1"
                    None] |}).
Proof.
  refine (fields_first_record Demo.loads Sample.hasattr Sample.config "Leads"
            (Sample.world0 [inr (Sample.resp 200 "records")] [])
            (Sample.resp 200 "records") _
            (JObj [("type", JStr "Leads");
                   ("attributes", JObj [("name", JStr "a"); ("city", JStr "b")])])
            [JObj [("type", JStr "Leads"); ("attributes", JObj [("other", JNull)])]]
            [("name", JStr "a"); ("city", JStr "b")] [] _ _ _ _ _ _).
  - exists "tok0". reflexivity.
  - vm_compute. reflexivity.
  - reflexivity.
  - split; [simpl; lia | split; reflexivity].
  - reflexivity.
  - reflexivity.
Defined.

Lemma delete_relationship_no_separator_witness :
  exists tl,
    trace (snd (Demo.delete_relationship "Leads" "1" "Contacts" "2"
                  (Sample.world0 [inr (Sample.resp 200 "error")] [])))
    = Call "delete" "https://crm.example.com/Api/V8module/Leads/1/relationships/contacts/2"
           None :: tl.
Proof.
  refine (delete_relationship_no_separator Demo.loads Sample.hasattr Sample.config
            Demo.lower "Leads" "1" "Contacts" "2"
            (Sample.world0 [inr (Sample.resp 200 "error")] []) _ _).
  - exists "tok0". reflexivity.
  - vm_compute. reflexivity.
Defined.

Lemma custom_modules_never_overwrite_witness :
  Demo.attributes !! "request" = Some Registry.Other.
Proof.
  refine (custom_modules_never_overwrite
            (foldl (fun s name => <[name := Registry.ModuleObj name]> s)
                   Demo.base_attributes Registry.builtin_modules)
            Demo.attributes (Some Demo.custom_modules) _ "request" Registry.Other _).
  - reflexivity.
  - reflexivity.
Defined.

Lemma builtin_modules_present_witness :
  Demo.attributes !! "Contacts" = Some (Registry.ModuleObj "Contacts").
Proof.
  refine (builtin_modules_present Demo.base_attributes Demo.attributes
            (Some Demo.custom_modules) "Contacts" _ _).
  - reflexivity.
  - apply (bool_decide_unpack _). vm_compute. exact I.
Defined.

Lemma first_declaration_wins_witness :
  Demo.attributes !! "Invoices" = Some (Registry.ModuleObj "AOS_Invoices").
Proof.
  refine (first_declaration_wins
            (foldl (fun s name => <[name := Registry.ModuleObj name]> s)
                   Demo.base_attributes Registry.builtin_modules)
            Demo.attributes []
            [Demo.declaration "Contacts" "Hijack"; Demo.declaration "Invoices" "Other"]
            (Demo.declaration "Invoices" "AOS_Invoices") "Invoices" "AOS_Invoices"
            _ _ _ _ _).
  - reflexivity.
  - reflexivity.
  - reflexivity.
  - reflexivity.
  - intros m Hm. now apply elem_of_nil in Hm.
Defined.

Lemma init_without_credentials_witness :
  Demo.__init__ (Some "id") None (Some "https://crm.example.com/Api/V8") None
    (Demo.fresh [inr "t1"])
  = (Raise (OtherError "AttributeError"), Demo.fresh [inr "t1"]).
Proof.
  refine (init_without_credentials Demo.new_config Demo.config_truthy
            Demo.custom_modules_of Demo.base_attributes
            (Some "id") None (Some "https://crm.example.com/Api/V8") None
            (Demo.fresh [inr "t1"]) _ _); reflexivity.
Defined.

Lemma init_with_config_witness :
  Demo.__init__ None None None (Some Sample.config) (Demo.fresh [inr "t1"])
  = (Ret (Sample.config, Demo.attributes),
     {| net := []; idp := []; token_file := Some "t1"; session := Some "t1";
        trace := [FetchToken "https://crm.example.com/Api/access_token" "id" "secret"] |}).
Proof.
  refine (proj1 (init_with_config Demo.new_config Demo.config_truthy
            Demo.custom_modules_of Demo.base_attributes None None None
            Sample.config (Demo.fresh [inr "t1"]) "t1" [] Demo.attributes _ _ _)).
  - reflexivity.
  - reflexivity.
  - reflexivity.
Defined.
